(** * scrubby: the read classifier's data pipeline

    A shallow embedding of [scrubby/model.py] (and of the two commands of
    [scrubby/terminal.py] that call it): the sequence encoder, label extraction
    from file names, the alignment index, the dataset loader, the
    train/test/validation split, the data set a training run assembles and the
    per-class report of the inference engine.

    Conventions of the embedding.
    - A Python [str] is a [list ascii] (FASTQ data, file names and the alignment
      table are ASCII text); a [dict] is a [gmap]; a Python [list] and an
      array are a [list] of their elements.
    - Floating-point numbers and their arithmetic are idealised: a value is an
      exact rational ([Q], the literal 0.7 is 7/10), products and quotients
      are exact, and [int(x)] truncates. The rounding of binary floating
      point is not part of the model.
    - Exceptions are values: fallible code returns a [result].
    - Tensors keep their elements; the singleton axes added by
      [tf.expand_dims] are not represented.
    - The classifier itself ([HybridModel], its weights and its training) is
      opaque: a function from a batch to rows of logits. *)

From Stdlib Require Import ZArith QArith Qround Ascii String Lia Permutation.
From stdpp Require Import base list gmap strings.

Open Scope Z_scope.

Abbreviation str := (list ascii).

(** A string literal as a Python [str]. *)
Definition s2l (s : string) : str := list_ascii_of_string s.

(** ** The Python runtime the module relies on *)

Module Py.

Inductive exn : Type :=
| ValueError (msg : string)
| IndexError
| KeyError
| TypeError
| InvalidArgumentError.

Inductive result (A : Type) : Type :=
| Ok (a : A)
| Raise (e : exn).
Arguments Ok {A} a.
Arguments Raise {A} e.

#[export] Instance result_ret : MRet result := fun _ a => Ok a.
#[export] Instance result_bind : MBind result := fun _ _ f m =>
  match m with
  | Ok a => f a
  | Raise e => Raise e
  end.

#[export] Instance result_fmap : FMap result := fun _ _ f m =>
  match m with
  | Ok a => Ok (f a)
  | Raise e => Raise e
  end.

Definition is_ok {A} (r : result A) : bool :=
  match r with Ok _ => true | Raise _ => false end.

(** [s.startswith(sub)] *)
Fixpoint startswith (sub s : str) : bool :=
  match sub, s with
  | [], _ => true
  | _ :: _, [] => false
  | a :: sub', b :: s' => if Ascii.eqb a b then startswith sub' s' else false
  end.

(** [s.rfind(sub)]: the highest index at which [sub] occurs, [-1] if none.
    [rfind_from] scans left to right and keeps the last match seen. *)
Fixpoint rfind_from (sub s : str) (i found : Z) : Z :=
  let found' := if startswith sub s then i else found in
  match s with
  | [] => found'
  | _ :: s' => rfind_from sub s' (i + 1) found'
  end.

Definition rfind (s sub : str) : Z := rfind_from sub s 0 (-1).

(** [sub in s] for two strings. *)
Fixpoint contains (s sub : str) : bool :=
  startswith sub s ||
  match s with
  | [] => false
  | _ :: s' => contains s' sub
  end.

(** Slice bounds as CPython normalises them ([PySlice_AdjustIndices], step 1):
    a negative bound counts from the end, and every bound is clamped to
    [0, len]. *)
Definition adjust_index (len i : Z) : Z :=
  if i <? 0 then Z.max (i + len) 0 else Z.min i len.

(** [l[lo:hi]], a bound being [None] when it is left out. *)
Definition slice {A} (l : list A) (lo hi : option Z) : list A :=
  let len := Z.of_nat (length l) in
  let a := match lo with Some i => adjust_index len i | None => 0 end in
  let b := match hi with Some i => adjust_index len i | None => len end in
  take (Z.to_nat (b - a)) (drop (Z.to_nat a) l).

(** [l[i]] for [i >= 0] on a list. *)
Definition getitem {A} (l : list A) (i : nat) : result A :=
  match l !! i with
  | Some x => Ok x
  | None => Raise IndexError
  end.

(** [str.isspace] on ASCII: TAB, LF, VT, FF, CR, FS, GS, RS, US and space. *)
Definition isspace (c : ascii) : bool :=
  let n := Z.of_nat (nat_of_ascii c) in
  ((9 <=? n) && (n <=? 13)) || ((28 <=? n) && (n <=? 31)) || (n =? 32).

Fixpoint lstrip (s : str) : str :=
  match s with
  | c :: s' => if isspace c then lstrip s' else s
  | [] => []
  end.

(** [s.strip()] *)
Definition strip (s : str) : str := rev (lstrip (rev (lstrip s))).

(** [s.split(sep)] for a one-character separator: never empty. *)
Fixpoint split (sep : ascii) (s : str) : list str :=
  match s with
  | [] => [[]]
  | c :: s' =>
      if Ascii.eqb c sep then [] :: split sep s'
      else match split sep s' with
           | p :: ps => (c :: p) :: ps
           | [] => [[c]]
           end
  end.

Definition digit_value (c : ascii) : option Z :=
  let n := Z.of_nat (nat_of_ascii c) in
  if (48 <=? n) && (n <=? 57) then Some (n - 48) else None.

(** What the literal scanner of [int()] has just read. *)
Inductive scanned : Type := AtStart | AfterDigit | AfterUnderscore.

(** Decimal digits with single underscores between digits; returns the value
    and the number of digits. *)
Fixpoint scan_digits (s : str) (prev : scanned) (acc : Z) (n : Z) : option (Z * Z) :=
  match s with
  | [] => match prev with AfterDigit => Some (acc, n) | _ => None end
  | c :: s' =>
      if Ascii.eqb c "_" then
        match prev with
        | AfterDigit => scan_digits s' AfterUnderscore acc n
        | _ => None
        end
      else
        match digit_value c with
        | Some d => scan_digits s' AfterDigit (10 * acc + d) (n + 1)
        | None => None
        end
  end.

(** CPython's default bound on the digits of a decimal literal
    ([sys.int_info.default_max_str_digits]). *)
Definition max_str_digits : Z := 4300.

Definition invalid_literal : exn := ValueError "invalid literal for int() with base 10".
Definition too_many_digits : exn :=
  ValueError "Exceeds the limit (4300 digits) for integer string conversion".

(** [int(s)] for a string: surrounding white space is ignored, then an
    optional sign and a decimal literal. *)
Definition int (s : str) : result Z :=
  let t := strip s in
  let '(sign, body) :=
    match t with
    | c :: t' =>
        if Ascii.eqb c "-" then (-1, t')
        else if Ascii.eqb c "+" then (1, t')
        else (1, t)
    | [] => (1, t)
    end in
  match scan_digits body AtStart 0 0 with
  | Some (v, n) => if max_str_digits <? n then Raise too_many_digits else Ok (sign * v)
  | None => Raise invalid_literal
  end.

(** [int(x)] for a float: truncation towards zero. *)
Definition int_of_float (x : Q) : Z := Z.quot (Qnum x) (Z.pos (Qden x)).

(** [list(range(n))] *)
Definition range (n : Z) : list Z := Z.of_nat <$> seq 0 (Z.to_nat n).

(** [os.path.basename] (posixpath). *)
Definition basename (p : str) : str :=
  slice p (Some (rfind p (s2l "/") + 1)) None.

(** [os.path.splitext] (genericpath._splitext with [sep = "/"], no [altsep],
    [extsep = "."]): split at the last dot of the last path component, unless
    only dots precede it there. The loop over [filenameIndex] looks for a
    character other than the dot in [p[sepIndex+1:dotIndex]]. *)
Definition splitext (p : str) : str * str :=
  let sepIndex := rfind p (s2l "/") in
  let dotIndex := rfind p (s2l ".") in
  if sepIndex <? dotIndex then
    if forallb (fun c => Ascii.eqb c ".") (slice p (Some (sepIndex + 1)) (Some dotIndex))
    then (p, [])
    else (slice p None (Some dotIndex), slice p (Some dotIndex) None)
  else (p, []).

(** [random.shuffle(x)]: for [i] from [len(x) - 1] down to [1], draw
    [j = randbelow(i + 1)] and exchange [x[i]] and [x[j]]. The generator is
    a sequence [rng] of raw draws, the [k]-th one reduced to the requested
    range. *)
Section Shuffle.
Variable rng : nat -> nat.

Definition randbelow (k n : nat) : nat := (rng k mod n)%nat.

(** [x[i], x[j] = x[j], x[i]] *)
Definition swap {A} (x : list A) (i j : nat) : list A :=
  match x !! i, x !! j with
  | Some a, Some b => <[j := a]> (<[i := b]> x)
  | _, _ => x
  end.

Fixpoint shuffle_loop {A} (k i : nat) (x : list A) : list A :=
  match i with
  | O => x
  | S i' => shuffle_loop (S k) i' (swap x i (randbelow k (i + 1)))
  end.

Definition shuffle {A} (x : list A) : list A :=
  shuffle_loop 0 (length x - 1) x.
End Shuffle.

(** [np.array(xs)] keeps the elements of [xs]; its shape is [(0,)] when [xs]
    is empty and [(len(xs), ...)] with the elements' axes otherwise, so
    [np.concatenate] refuses to join an empty array with a non-empty one. *)
Definition np_concatenate {A} (arrays : list (list A)) : result (list A) :=
  match arrays with
  | [] => Raise (ValueError "need at least one array to concatenate")
  | _ :: _ =>
      if forallb (fun a => bool_decide (length a = 0%nat)) arrays
         || forallb (fun a => negb (bool_decide (length a = 0%nat))) arrays
      then Ok (concat arrays)
      else Raise (ValueError "all the input arrays must have same number of dimensions")
  end.

(** [np.bincount(x, minlength=m)]: a zero array of length
    [max(m, max(x) + 1)], incremented at each element of [x]. *)
Definition bincount (x : list nat) (minlength : nat) : list Z :=
  foldl (fun out i => <[i := default 0 (out !! i) + 1]> out)
        (replicate (Nat.max minlength (foldr (fun i m => Nat.max (S i) m) 0%nat x)) 0)
        x.

(** [tf.argmax] along one row: an index holding the largest value, here the
    first such index. *)
Fixpoint argmax_from (row : list Q) (i best : nat) (best_value : Q) : nat :=
  match row with
  | [] => best
  | v :: row' =>
      if Qlt_le_dec best_value v then argmax_from row' (S i) i v
      else argmax_from row' (S i) best best_value
  end.

Definition argmax (row : list Q) : nat :=
  match row with
  | [] => 0%nat
  | v :: row' => argmax_from row' 1 0 v
  end.

End Py.

Import Py.

(** ** scrubby/model.py *)

Definition INPUT_SIZE : nat := 150.
Definition NUM_CLASSES : nat := 5.
Definition NUM_CHROMOSOMES : nat := 25.

(** The dictionary literal of [normalize_sequence]. *)
Definition mapping : gmap ascii Q :=
  {[ "A"%char := 1%Q; "C"%char := 2%Q; "G"%char := 3%Q; "T"%char := 4%Q ]}.

Definition normalize_sequence (seq : str) : list Q :=
  (fun base => default 0%Q (mapping !! base)) <$> seq.

Definition invalid_filename : exn :=
  ValueError "Invalid filename format for extracting label".

(** The file name with its directory and (up to) two extensions removed. *)
Definition label_filename (file_path : str) : str :=
  (splitext (splitext (basename file_path)).1).1.

Definition get_label_from_filename (file_path : str) : result Z :=
  let filename := label_filename file_path in
  let label_pos := rfind filename (s2l "__") in
  if negb (label_pos =? -1) then int (slice filename (Some (label_pos + 2)) None)
  else Raise invalid_filename.

(** One line of the alignment table, as the loop body of
    [load_alignment_info] reads it. *)
Definition parse_alignment_line (line : str) : result (str * (Z * Z * Z)) :=
  let parts := split "," (strip line) in
  read_id ← getitem parts 0;
  chromosome ← getitem parts 1 ≫= int;
  start ← getitem parts 2 ≫= int;
  end_ ← getitem parts 3 ≫= int;
  Ok (read_id, (chromosome, start, end_)).

Fixpoint load_alignment_lines (lines : list str) (alignment_info : gmap str (Z * Z * Z))
  : result (gmap str (Z * Z * Z)) :=
  match lines with
  | [] => Ok alignment_info
  | line :: lines' =>
      '(read_id, entry) ← parse_alignment_line line;
      load_alignment_lines lines' (<[read_id := entry]> alignment_info)
  end.

(** [load_alignment_info], on the lines of the opened file. *)
Definition load_alignment_info (lines : list str) : result (gmap str (Z * Z * Z)) :=
  load_alignment_lines lines ∅.

(** What a caller passes as [alignment_info]: [None], a string or a
    dictionary. The three operations the loader applies to it follow. *)
Inductive alignment_arg : Type :=
| ArgNone
| ArgStr (s : str)
| ArgDict (d : gmap str (Z * Z * Z)).

(** [if alignment_info:] *)
Definition truthy (a : alignment_arg) : bool :=
  match a with
  | ArgNone => false
  | ArgStr s => negb (bool_decide (s = []))
  | ArgDict d => negb (bool_decide (d = ∅))
  end.

(** [read_id in alignment_info] *)
Definition arg_contains (a : alignment_arg) (read_id : str) : result bool :=
  match a with
  | ArgNone => Raise TypeError
  | ArgStr s => Ok (contains s read_id)
  | ArgDict d => Ok (bool_decide (is_Some (d !! read_id)))
  end.

(** [alignment_info[read_id]] *)
Definition arg_subscript (a : alignment_arg) (read_id : str) : result (Z * Z * Z) :=
  match a with
  | ArgNone => Raise TypeError
  | ArgStr _ => Raise TypeError
  | ArgDict d => match d !! read_id with Some v => Ok v | None => Raise KeyError end
  end.

(** Where TensorFlow places the scatter update: an index out of bounds is an
    error on the CPU and is ignored on a GPU. *)
Inductive device : Type := CPU | GPU.

(** [tf.tensor_scatter_nd_update(tensor, [[index]], [update])] *)
Definition tensor_scatter_nd_update (dev : device) (tensor : list Q) (index : Z) (update : Q)
  : result (list Q) :=
  if (0 <=? index) && (index <? Z.of_nat (length tensor))
  then Ok (<[Z.to_nat index := update]> tensor)
  else match dev with
       | CPU => Raise InvalidArgumentError
       | GPU => Ok tensor
       end.

(** A record of [SeqIO.parse(file_path, "fastq")]. *)
Record fastq_record : Type := { id : str; seq : str }.

(** What the module prints. *)
Inductive printed : Type :=
| LabelFromFilename (seq_label : Z)
| Excluded (excluded total : Z)
| PredictionsFor (fastq_path : str)
| ClassLine (cls : nat) (count : Z) (percentage : option Q).

(** The local variables of [load_sequences] that its loop updates. *)
Record loader : Type := {
  seqs : list (list Q);
  labels : list Z;
  aux_inputs : list (list Q);
  excluded : Z;
  total : Z
}.

(** The auxiliary vector of a read found in the alignment index. *)
Definition aux_input_of (dev : device) (num_chromosomes : nat) (entry : Z * Z * Z)
  : result (list Q) :=
  let '(chromosome, start, end_) := entry in
  chrom_tensor ← tensor_scatter_nd_update dev (replicate num_chromosomes 0%Q) chromosome 1%Q;
  Ok (chrom_tensor ++ [inject_Z start] ++ [inject_Z end_]).

(** The body of the loop of [load_sequences] for one record. *)
Definition load_record (dev : device) (alignment_info : alignment_arg)
    (num_chromosomes : nat) (seq_label : Z) (st : loader) (record : fastq_record)
  : result loader :=
  let total' := total st + 1 in
  let seq := normalize_sequence (seq record) in
  if (length seq <? INPUT_SIZE)%nat then
    Ok {| seqs := seqs st; labels := labels st; aux_inputs := aux_inputs st;
          excluded := excluded st + 1; total := total' |}
  else
    let seq_tensor := slice seq None (Some (Z.of_nat INPUT_SIZE)) in
    aux_inputs' ←
      (if truthy alignment_info then
         let read_id := id record in
         present ← arg_contains alignment_info read_id;
         if (present : bool) then
           entry ← arg_subscript alignment_info read_id;
           aux_input ← aux_input_of dev num_chromosomes entry;
           Ok (aux_inputs st ++ [aux_input])
         else Ok (aux_inputs st)
       else Ok (aux_inputs st));
    Ok {| seqs := seqs st ++ [seq_tensor]; labels := labels st ++ [seq_label];
          aux_inputs := aux_inputs'; excluded := excluded st; total := total' |}.

Fixpoint load_records (dev : device) (alignment_info : alignment_arg)
    (num_chromosomes : nat) (seq_label : Z) (st : loader) (records : list fastq_record)
  : result loader :=
  match records with
  | [] => Ok st
  | record :: records' =>
      st' ← load_record dev alignment_info num_chromosomes seq_label st record;
      load_records dev alignment_info num_chromosomes seq_label st' records'
  end.

(** What [load_sequences] returns, with what it has printed. *)
Record loaded : Type := {
  sequences : list (list Q);
  seq_labels : list Z;
  aux : option (list (list Q));
  output : list printed
}.

(** [class_counts / total_predictions * 100] for one class; [None] is the
    not-a-number of a division by zero. *)
Definition percentage_of (count total_predictions : Z) : option Q :=
  if total_predictions =? 0 then None
  else Some (inject_Z count / inject_Z total_predictions * 100)%Q.

(** Lines 249-259 of [predict_nn]: the per-class lines printed for the logits
    [predictions] of one file, as (class, count, percentage). *)
Definition class_report (predictions : list (list Q)) : list (nat * Z * option Q) :=
  let predicted_classes := argmax <$> predictions in
  let class_counts := bincount predicted_classes NUM_CLASSES in
  let total_predictions := Z.of_nat (length predicted_classes) in
  let class_distribution := (fun c => percentage_of c total_predictions) <$> class_counts in
  imap (fun cls count => (cls, count, default None (class_distribution !! cls))) class_counts.

Section Environment.

(** The files the program reads: the records [SeqIO.parse] yields for a
    FASTQ path and the lines of a text file. *)
Variable parse_fastq : str -> result (list fastq_record).
Variable read_lines : str -> result (list str).
(** The device TensorFlow runs on. *)
Variable dev : device.
(** [HybridModel] with the weights loaded: from a batch of sequence tensors
    and optional auxiliary vectors to one row of logits per example. *)
Variable model : list (list Q) -> option (list (list Q)) -> result (list (list Q)).
(** The raw draws of the random generator. *)
Variable rng : nat -> nat.

Definition load_sequences_with (file_path : str) (alignment_info : alignment_arg)
    (num_chromosomes : nat) : result loaded :=
  seq_label ← get_label_from_filename file_path;
  records ← parse_fastq file_path;
  st ← load_records dev alignment_info num_chromosomes seq_label
         {| seqs := []; labels := []; aux_inputs := []; excluded := 0; total := 0 |}
         records;
  Ok {| sequences := seqs st;
        seq_labels := labels st;
        aux := match aux_inputs st with [] => None | _ :: _ => Some (aux_inputs st) end;
        output := [LabelFromFilename seq_label; Excluded (excluded st) (total st)] |}.

(** [load_sequences(file_path, alignment_info)], [num_chromosomes] at its
    default. *)
Definition load_sequences (file_path : str) (alignment_info : alignment_arg)
  : result loaded :=
  load_sequences_with file_path alignment_info NUM_CHROMOSOMES.

Definition train_test_val_split (data_len : Z) (train_ratio test_ratio : Q)
  : list Z * list Z * list Z :=
  let indices := range data_len in
  let indices := shuffle rng indices in
  let train_end := int_of_float (inject_Z data_len * train_ratio) in
  let test_end := train_end + int_of_float (inject_Z data_len * test_ratio) in
  (slice indices None (Some train_end),
   slice indices (Some train_end) (Some test_end),
   slice indices (Some test_end) None).

(** The accumulators of the loading loop of [train_nn]. *)
Record gathered : Type := {
  all_sequences : list (list (list Q));
  all_labels : list (list Z);
  all_aux_inputs : list (list (list Q));
  has_aux_inputs : bool
}.

Fixpoint train_nn_gather (fastq_files : list str) (alignment_data : alignment_arg)
    (g : gathered) : result gathered :=
  match fastq_files with
  | [] => Ok g
  | file_path :: fastq_files' =>
      r ← load_sequences file_path alignment_data;
      train_nn_gather fastq_files' alignment_data
        {| all_sequences := all_sequences g ++ [sequences r];
           all_labels := all_labels g ++ [seq_labels r];
           all_aux_inputs :=
             match aux r with
             | Some a => all_aux_inputs g ++ [a]
             | None => all_aux_inputs g
             end;
           has_aux_inputs :=
             match aux r with
             | Some _ => true
             | None => has_aux_inputs g
             end |}
  end.

(** The data set [train_nn] assembles before it splits and fits. *)
Record dataset : Type := {
  data_sequences : list (list Q);
  data_labels : list Z;
  data_aux_inputs : option (list (list Q));
  aux_input_size : option nat
}.

(** [train_nn] up to the construction of the classifier (lines 167-205, the
    split of line 188 apart). [alignment_data] goes to [load_sequences] as it
    is received. *)
Definition train_nn (fastq_files : list str) (alignment_data : alignment_arg)
  : result dataset :=
  g ← train_nn_gather fastq_files alignment_data
        {| all_sequences := []; all_labels := []; all_aux_inputs := [];
           has_aux_inputs := false |};
  data_seqs ← np_concatenate (all_sequences g);
  data_labs ← np_concatenate (all_labels g);
  data_aux ← (if has_aux_inputs g then Some <$> np_concatenate (all_aux_inputs g)
              else Ok None);
  Ok {| data_sequences := data_seqs;
        data_labels := data_labs;
        data_aux_inputs := data_aux;
        aux_input_size :=
          if has_aux_inputs g then Some (NUM_CHROMOSOMES + 2)%nat else None |}.

(** The body of the loop of [predict_nn] for one file. *)
Definition predict_file (fastq_path : str) (alignment_data : option str)
  : result (list printed) :=
  alignment_info ← match alignment_data with
                   | None => Ok ArgNone
                   | Some path => ArgDict <$> (read_lines path ≫= load_alignment_info)
                   end;
  r ← load_sequences fastq_path alignment_info;
  predictions ← model (sequences r) (aux r);
  Ok (output r ++ [PredictionsFor fastq_path]
        ++ ((fun '(cls, count, pct) => ClassLine cls count pct) <$> class_report predictions)).

Fixpoint predict_nn (fastq_files : list str) (alignment_data : option str)
  : result (list printed) :=
  match fastq_files with
  | [] => Ok []
  | fastq_path :: fastq_files' =>
      out ← predict_file fastq_path alignment_data;
      out' ← predict_nn fastq_files' alignment_data;
      Ok (out ++ out')
  end.

(** *** scrubby/terminal.py *)

(** A command-line option of type [str] that defaults to [None]. *)
Definition option_value (alignment_data : option str) : alignment_arg :=
  match alignment_data with
  | None => ArgNone
  | Some path => ArgStr path
  end.

(** The [train] command: [train_nn(fastq_files, model_weights, alignment_data,
    epochs, batch_size)] with the value of the [--alignment-data] option. *)
Definition train (fastq_files : list str) (alignment_data : option str)
  : result dataset :=
  train_nn fastq_files (option_value alignment_data).

(** The [predict] command. *)
Definition predict (fastq_files : list str) (alignment_data : option str)
  : result (list printed) :=
  predict_nn fastq_files alignment_data.

End Environment.

(** ** The specification's vocabulary *)

(** The symbol table of the specification: A, C, G, T to 1.0 .. 4.0, any other
    symbol to 0.0. *)
Definition symbol_value (c : ascii) : Q :=
  if Ascii.eqb c "A" then 1%Q
  else if Ascii.eqb c "C" then 2%Q
  else if Ascii.eqb c "G" then 3%Q
  else if Ascii.eqb c "T" then 4%Q
  else 0%Q.

(** The comma-separated fields of a line of the alignment table. *)
Definition fields (line : str) : list str := split "," (strip line).

(** A line is well formed when it has at least four fields and the second to
    the fourth are integers. *)
Definition well_formed_line (line : str) : Prop :=
  (4 <= length (fields line))%nat /\
  Forall (fun field => is_ok (int field) = true) (take 3 (drop 1 (fields line))).

(** The (chromosome, start, end) triple a line holds for [read_id], if it is
    a line of that read. *)
Definition line_entry (read_id : str) (line : str) : option (Z * Z * Z) :=
  match fields line with
  | r :: c :: s :: e :: _ =>
      if bool_decide (r = read_id) then
        match int c, int s, int e with
        | Ok c', Ok s', Ok e' => Some (c', s', e')
        | _, _, _ => None
        end
      else None
  | _ => None
  end.

(** The first field of a line. *)
Definition line_read_id (line : str) : option str := fields line !! 0%nat.

(** The triple of the last line of [lines] whose first field is [read_id]. *)
Fixpoint last_occurrence (read_id : str) (lines : list str) : option (Z * Z * Z) :=
  match lines with
  | [] => None
  | line :: lines' =>
      match bool_decide (Exists (fun l => line_read_id l = Some read_id) lines') with
      | true => last_occurrence read_id lines'
      | false => line_entry read_id line
      end
  end.


(** The tensor of a kept record: the code of its first [INPUT_SIZE] symbols. *)
Definition sequence_tensor (record : fastq_record) : list Q :=
  normalize_sequence (take INPUT_SIZE (seq record)).

(** The auxiliary feature vector of the specification: a one-hot vector of the
    chromosome, then the start and the end. *)
Definition aux_vector (num_chromosomes : nat) (entry : Z * Z * Z) : list Q :=
  let '(chromosome, start, end_) := entry in
  <[Z.to_nat chromosome := 1%Q]> (replicate num_chromosomes 0%Q)
    ++ [inject_Z start; inject_Z end_].

(** A training run on one file [reads__1.fastq] with a single read [r1] of
    150 symbols, and the alignment table [align.csv] that lists that read. *)
Definition one_read : list fastq_record :=
  [ {| id := s2l "r1"; seq := replicate 150 "A"%char |} ].

Definition one_read_fastq (file_path : str) : result (list fastq_record) :=
  Ok one_read.

Definition one_read_table : list str := [s2l "r1,3,10,160"].





Definition Qsum (l : list Q) : Q := foldr Qplus 0%Q l.



(** The delimiter that precedes the label in a file name. *)
Definition delimiter : str := s2l "__".

(** [filename] is [stem ++ "__" ++ suffix] and the delimiter does not occur
    again further right. *)
Definition last_delimiter (filename stem suffix : str) : Prop :=
  filename = stem ++ delimiter ++ suffix /\
  contains ("_"%char :: suffix) delimiter = false.

Definition is_digit (c : ascii) : Prop :=
  48 <= Z.of_nat (nat_of_ascii c) <= 57.

(** The number a string of decimal digits denotes. *)
Definition decimal_value (digits : str) : Z :=
  foldl (fun acc c => 10 * acc + (Z.of_nat (nat_of_ascii c) - 48)) 0 digits.

(** Some file of the run yields auxiliary vectors. *)
Definition some_file_has_aux (parse_fastq : str -> result (list fastq_record))
    (dev : device) (fastq_files : list str) (alignment_data : alignment_arg) : Prop :=
  exists file_path r,
    file_path ∈ fastq_files /\
    load_sequences parse_fastq dev file_path alignment_data = Ok r /\
    is_Some (aux r).

(** ** Further code of scrubby/model.py *)

(** [np.eye(n)]: row [i] holds 1.0 in column [i] and 0.0 elsewhere. *)
Definition np_eye (n : nat) : list (list Q) :=
  (fun i => (fun j => if bool_decide (i = j) then 1%Q else 0%Q) <$> List.seq 0 n)
    <$> List.seq 0 n.

(** [a[i]] for an array and an integer: a negative index counts from the end,
    and an index outside [-len, len) is an [IndexError]. *)
Definition np_getitem {A} (a : list A) (i : Z) : result A :=
  let len := Z.of_nat (length a) in
  if (- len <=? i) && (i <? len)
  then getitem a (Z.to_nat (if i <? 0 then i + len else i))
  else Raise IndexError.

(** [a[indices]] for a list of integers: the elements picked one by one. *)
Fixpoint np_take {A} (a : list A) (indices : list Z) : result (list A) :=
  match indices with
  | [] => Ok []
  | i :: indices' =>
      x ← np_getitem a i;
      xs ← np_take a indices';
      Ok (x :: xs)
  end.

(** [one_hot_encode(labels, num_classes)] for a list of labels. *)
Definition one_hot_encode (labels : list Z) (num_classes : nat) : result (list (list Q)) :=
  np_take (np_eye num_classes) labels.

(** [tf.reduce_mean] over all the entries of a tensor; [None] is the
    not-a-number of a tensor without entries. *)
Definition reduce_mean (entries : list Q) : option Q :=
  match entries with
  | [] => None
  | _ :: _ => Some (Qsum entries / inject_Z (Z.of_nat (length entries)))%Q
  end.

(** [tf.cast(b, tf.float32)] *)
Definition cast_float (b : bool) : Q := if b then 1%Q else 0%Q.

(** [predicted_classes == labels] for the vector of predicted classes, of
    shape (m,), and the labels as [train_nn] holds them, a column of shape
    (n, 1): the comparison broadcasts to shape (n, m), entry (i, j) comparing
    label [i] with prediction [j]. *)
Definition equal_broadcast (predicted_classes : list nat) (label_column : list Z)
  : list (list bool) :=
  (fun label => (fun p => bool_decide (Z.of_nat p = label)) <$> predicted_classes)
    <$> label_column.

(** [evaluate(model, sequences, labels, aux_inputs)] *)
Definition evaluate
    (model : list (list Q) -> option (list (list Q)) -> result (list (list Q)))
    (sequences : list (list Q)) (label_column : list Z)
    (aux_inputs : option (list (list Q))) : result (option Q) :=
  predictions ← model sequences aux_inputs;
  let predicted_classes := argmax <$> predictions in
  Ok (reduce_mean (cast_float <$> concat (equal_broadcast predicted_classes label_column))).

(** The arrays [train_nn] cuts out of the data set (lines 188-203). *)
Record split_data : Type := {
  train_sequences : list (list Q);
  test_sequences : list (list Q);
  val_sequences : list (list Q);
  train_labels : list Z;
  test_labels : list Z;
  val_labels : list Z;
  train_aux_inputs : option (list (list Q));
  test_aux_inputs : option (list (list Q));
  val_aux_inputs : option (list (list Q))
}.

(** Lines 188-203 of [train_nn]: the 70/15/15 split of the indices and the
    arrays indexed by the three index lists. *)
Definition train_nn_split (rng : nat -> nat) (data : dataset) : result split_data :=
  let '(train_indices, test_indices, val_indices) :=
    train_test_val_split rng (Z.of_nat (length (data_sequences data))) (7 # 10) (15 # 100) in
  train_s ← np_take (data_sequences data) train_indices;
  test_s ← np_take (data_sequences data) test_indices;
  val_s ← np_take (data_sequences data) val_indices;
  train_l ← np_take (data_labels data) train_indices;
  test_l ← np_take (data_labels data) test_indices;
  val_l ← np_take (data_labels data) val_indices;
  match data_aux_inputs data with
  | Some all_aux =>
      train_a ← np_take all_aux train_indices;
      test_a ← np_take all_aux test_indices;
      val_a ← np_take all_aux val_indices;
      Ok {| train_sequences := train_s; test_sequences := test_s; val_sequences := val_s;
            train_labels := train_l; test_labels := test_l; val_labels := val_l;
            train_aux_inputs := Some train_a; test_aux_inputs := Some test_a;
            val_aux_inputs := Some val_a |}
  | None =>
      Ok {| train_sequences := train_s; test_sequences := test_s; val_sequences := val_s;
            train_labels := train_l; test_labels := test_l; val_labels := val_l;
            train_aux_inputs := None; test_aux_inputs := None; val_aux_inputs := None |}
  end.

(** [train_nn] from the files to the split arrays (lines 167-205). *)
Definition train_nn_arrays (parse_fastq : str -> result (list fastq_record))
    (dev : device) (rng : nat -> nat) (fastq_files : list str)
    (alignment_data : alignment_arg) : result split_data :=
  train_nn parse_fastq dev fastq_files alignment_data ≫= train_nn_split rng.

(** *** [HybridModel], on the shapes of its tensors *)

Abbreviation shape := (list nat).

(** The shape of [np.array(xs)] for a list of tensors of shape [element]. *)
Definition np_shape {A} (element : shape) (xs : list A) : shape :=
  match xs with
  | [] => [0%nat]
  | _ :: _ => length xs :: element
  end.

(** Steps left by [Conv1D] with the given kernel width (stride 1, no
    padding); a kernel wider than the input cannot be placed. *)
Definition conv_steps (steps kernel_size : nat) : result nat :=
  if (kernel_size <=? steps)%nat then Ok (steps - kernel_size + 1)%nat
  else Raise (ValueError "Negative dimension size").

(** Steps left by [MaxPooling1D] with the given pool width (stride equal to
    the width, no padding). *)
Definition pool_steps (steps pool_size : nat) : nat := (steps / pool_size)%nat.

(** The steps the convolutional stage leaves of [input_size]. *)
Definition cnn_steps (input_size : nat) : result nat :=
  l1 ← conv_steps input_size 3;
  l2 ← conv_steps (pool_steps l1 2) 3;
  Ok (pool_steps l2 2).

(** What [HybridModel.__init__] builds: the convolutional stage for inputs of
    shape (input_size, 1), the optional recurrent layer and auxiliary layer
    with their widths, and the width of the head. *)
Record hybrid_model : Type := {
  cnn_input_size : nat;
  cnn_output_steps : nat;
  lstm : option nat;
  aux_fc : option nat;
  fc : nat
}.

Definition HybridModel (input_size hidden_size num_classes : nat)
    (aux_input_size : option nat) (use_lstm train : bool) : result hybrid_model :=
  steps ← cnn_steps input_size;
  Ok {| cnn_input_size := input_size;
        cnn_output_steps := steps;
        lstm := if use_lstm then Some hidden_size else None;
        aux_fc := match aux_input_size with Some _ => Some hidden_size | None => None end;
        fc := num_classes |}.

(** [self.cnn(inputs)]: the stage accepts a batch of shape
    (n, input_size, 1), the last axis being added when it is missing, and
    returns (n, steps, 64). *)
Definition cnn (m : hybrid_model) (inputs : shape) : result shape :=
  match inputs with
  | [n; steps; 1%nat] | [n; steps] =>
      if bool_decide (steps = cnn_input_size m) then Ok [n; cnn_output_steps m; 64%nat]
      else Raise (ValueError "incompatible input shape")
  | _ => Raise (ValueError "incompatible input shape")
  end.

(** [Bidirectional(LSTM(hidden, return_sequences=True))] *)
Definition bidirectional_lstm (hidden : nat) (x : shape) : result shape :=
  match x with
  | [n; steps; _] => Ok [n; steps; (2 * hidden)%nat]
  | _ => Raise (ValueError "expected ndim=3")
  end.

(** [Dense(units)]: the last axis of an input of two axes or more. *)
Definition dense (units : nat) (x : shape) : result shape :=
  match rev x with
  | _ :: (_ :: _) as leading => Ok (rev leading ++ [units])
  | _ => Raise (ValueError "expected min_ndim=2")
  end.

(** [tf.reduce_mean(x, axis=1)] *)
Definition reduce_mean_axis1 (x : shape) : result shape :=
  match x with
  | n :: _ :: rest => Ok (n :: rest)
  | _ => Raise InvalidArgumentError
  end.

(** [tf.concat([x, y], axis=1)]: the two tensors have the same number of axes
    and agree on every axis but the second. *)
Definition concat_axis1 (x y : shape) : result shape :=
  match x, y with
  | n1 :: a1 :: rest1, n2 :: a2 :: rest2 =>
      if bool_decide (n1 = n2 /\ rest1 = rest2) then Ok (n1 :: (a1 + a2)%nat :: rest1)
      else Raise InvalidArgumentError
  | _, _ => Raise InvalidArgumentError
  end.

(** [HybridModel.call(inputs, aux_input)] *)
Definition call (m : hybrid_model) (inputs : shape) (aux_input : option shape)
  : result shape :=
  x ← cnn m inputs;
  x ← match lstm m with
      | Some hidden => bidirectional_lstm hidden x
      | None => Ok x
      end;
  x ← match aux_fc m, aux_input with
      | Some units, Some a =>
          aux_out ← dense units a;
          pooled ← reduce_mean_axis1 x;
          concat_axis1 pooled aux_out
      | _, _ => reduce_mean_axis1 x
      end;
  dense (fc m) x.

(** The shape of the logits [predict_nn] asks of the classifier for one file:
    the classifier of line 240 called on the arrays of [load_sequences]. *)
Definition predict_logits_shape (alignment_data : option str) (r : loaded) : result shape :=
  m ← HybridModel INPUT_SIZE 128 NUM_CLASSES
        (match alignment_data with
         | Some _ => Some (NUM_CHROMOSOMES + 2)%nat
         | None => None
         end) true false;
  call m (np_shape [INPUT_SIZE; 1%nat] (sequences r))
         (np_shape [1%nat; (NUM_CHROMOSOMES + 2)%nat] <$> aux r).

(** Row [i] of the identity matrix of size [n]. *)
Definition unit_row (n i : nat) : list Q :=
  (fun j => if bool_decide (i = j) then 1%Q else 0%Q) <$> List.seq 0 n.

(** The row a label selects: a negative label counts from the last row. *)
Definition label_row (n : nat) (label : Z) : nat :=
  Z.to_nat (if label <? 0 then label + Z.of_nat n else label).




(** The examples of a data set: each sequence tensor with its label. *)
Definition examples (data : dataset) : list (list Q * Z) :=
  zip (data_sequences data) (data_labels data).

(** The four symbols of the table of [normalize_sequence]. *)
Definition nucleotide (base : ascii) : Prop :=
  base = "A"%char \/ base = "C"%char \/ base = "G"%char \/ base = "T"%char.

(** ** Examples for the further properties *)

(** Two files for examples: the read of [long__1.fastq] is kept, the read of
    any other file is too short. *)
Definition two_files_fastq (file_path : str) : result (list fastq_record) :=
  if bool_decide (file_path = s2l "long__1.fastq") then Ok one_read
  else Ok [ {| id := s2l "r2"; seq := s2l "ACGT" |} ].

(** A data set of three examples, without and with too few auxiliary
    vectors. *)
Definition three_examples : dataset :=
  {| data_sequences := [[1]; [2]; [3]]%Q; data_labels := [0; 1; 2];
     data_aux_inputs := None; aux_input_size := None |}.

Definition ragged_examples : dataset :=
  {| data_sequences := [[1]; [2]; [3]]%Q; data_labels := [0; 1; 2];
     data_aux_inputs := Some [[0]%Q]; aux_input_size := Some 27%nat |}.

(** An index for the read of [one_read], and one whose chromosome is no
    index of the one-hot vector. *)
Definition one_read_index : gmap str (Z * Z * Z) := {[ s2l "r1" := (3, 10, 160) ]}.


(** What the loader returns for the read of [one_read] without an index. *)
Definition one_read_loaded : loaded :=
  {| sequences := sequence_tensor <$> one_read; seq_labels := [1];
     aux := None; output := [] |}.

(** The classifier of [predict_nn] without auxiliary input. *)
Definition plain_hybrid_model : hybrid_model :=
  {| cnn_input_size := INPUT_SIZE; cnn_output_steps := 36; lstm := Some 128%nat;
     aux_fc := None; fc := NUM_CLASSES |}.

(** A classifier of two classes that answers class 0, then class 1. *)
Definition two_class_model (sequences : list (list Q)) (aux_inputs : option (list (list Q)))
  : result (list (list Q)) :=
  Ok [[1; 0]; [0; 1]]%Q.

(** A table whose only line holds a chromosome that is no integer. *)
Definition malformed_table (path : str) : result (list str) := Ok [s2l "r1,x,1,2"].

(** * Properties *)

(** ** Sequence encoder *)

Lemma mapping_get (base : ascii) :
  default 0%Q (mapping !! base) = symbol_value base.
Proof.
  unfold mapping, symbol_value.
  destruct (Ascii.eqb_spec base "A") as [->|HA]; [done|].
  rewrite lookup_insert_ne by done.
  destruct (Ascii.eqb_spec base "C") as [->|HC]; [by rewrite lookup_insert_eq|].
  rewrite lookup_insert_ne by done.
  destruct (Ascii.eqb_spec base "G") as [->|HG]; [by rewrite lookup_insert_eq|].
  rewrite lookup_insert_ne by done.
  destruct (Ascii.eqb_spec base "T") as [->|HT]; [by rewrite lookup_singleton_eq|].
  by rewrite lookup_singleton_ne.
Qed.

Lemma normalize_sequence_length (seq : str) :
  length (normalize_sequence seq) = length seq.
Proof. unfold normalize_sequence. by rewrite length_fmap. Qed.

Lemma normalize_sequence_lookup (seq : str) (i : nat) :
  normalize_sequence seq !! i = symbol_value <$> seq !! i.
Proof.
  unfold normalize_sequence. rewrite list_lookup_fmap.
  destruct (seq !! i); simpl; [by rewrite mapping_get | done].
Qed.

(** C8. [normalize_sequence] is a function of its argument alone, defined on
    every string: its result has the length of the input and holds, position
    by position, 1.0 for A, 2.0 for C, 3.0 for G, 4.0 for T and 0.0 for any
    other symbol. *)
Theorem normalize_sequence_total (seq : str) :
  length (normalize_sequence seq) = length seq /\
  normalize_sequence seq = symbol_value <$> seq /\
  (forall i, normalize_sequence seq !! i = symbol_value <$> seq !! i) /\
  symbol_value "A" = 1%Q /\ symbol_value "C" = 2%Q /\
  symbol_value "G" = 3%Q /\ symbol_value "T" = 4%Q /\
  (forall c, c <> "A"%char -> c <> "C"%char -> c <> "G"%char -> c <> "T"%char ->
     symbol_value c = 0%Q).
Proof.
  split; [apply normalize_sequence_length|].
  split.
  { apply list_eq. intros i. rewrite normalize_sequence_lookup.
    by rewrite list_lookup_fmap. }
  split; [apply normalize_sequence_lookup|].
  repeat (split; [reflexivity|]).
  intros c HA HC HG HT. unfold symbol_value.
  destruct (Ascii.eqb_spec c "A"); [done|].
  destruct (Ascii.eqb_spec c "C"); [done|].
  destruct (Ascii.eqb_spec c "G"); [done|].
  destruct (Ascii.eqb_spec c "T"); done.
Qed.

Lemma normalize_sequence_total_witness :
  normalize_sequence (s2l "ACGTN") = [1; 2; 3; 4; 0]%Q /\ symbol_value "N" = 0%Q.
Proof.
  destruct (normalize_sequence_total (s2l "ACGTN"))
    as (_ & Heq & _ & HA & HC & HG & HT & Hother).
  assert (symbol_value "N" = 0%Q) as HN by (apply Hother; discriminate).
  split; [|exact HN].
  rewrite Heq. simpl. by rewrite HA, HC, HG, HT, HN.
Defined.

(** C9. The encoder distinguishes case: wherever the input holds a lower-case
    a, c, g or t, the output holds 0.0, the value of an unknown symbol, and
    not the value of the upper-case letter. *)
Theorem normalize_sequence_case_sensitive (seq : str) (i : nat) (c : ascii) :
  c ∈ ["a"; "c"; "g"; "t"]%char ->
  seq !! i = Some c ->
  normalize_sequence seq !! i = Some 0%Q /\
  normalize_sequence [c] = [0%Q] /\
  forall upper, upper ∈ ["A"; "C"; "G"; "T"]%char ->
    normalize_sequence [upper] <> normalize_sequence [c].
Proof.
  intros Hc Hi.
  assert (symbol_value c = 0%Q) as H0.
  { set_unfold in Hc. destruct Hc as [->|[->|[->|[->|[]]]]]; reflexivity. }
  split; [by rewrite normalize_sequence_lookup, Hi; simpl; rewrite H0|].
  split; [unfold normalize_sequence; simpl; by rewrite mapping_get, H0|].
  intros upper Hu. unfold normalize_sequence. simpl. rewrite !mapping_get, H0.
  set_unfold in Hu. destruct Hu as [->|[->|[->|[->|[]]]]]; discriminate.
Qed.

Lemma normalize_sequence_case_sensitive_witness :
  normalize_sequence (s2l "ACgT") !! 2%nat = Some 0%Q.
Proof.
  apply (normalize_sequence_case_sensitive (s2l "ACgT") 2 "g").
  - set_solver.
  - reflexivity.
Defined.

(** ** Alignment index *)

Lemma parse_alignment_line_cases (line : str) :
  (well_formed_line line /\
   exists read_id entry, parse_alignment_line line = Ok (read_id, entry) /\
     line_read_id line = Some read_id /\
     forall k, line_entry k line = if bool_decide (read_id = k) then Some entry else None) \/
  (~ well_formed_line line /\ exists e, parse_alignment_line line = Raise e).
Proof.
  unfold well_formed_line, parse_alignment_line, line_read_id, line_entry.
  fold (fields line).
  destruct (fields line) as [|r [|c [|s [|e rest]]]]; simpl;
    try (right; split; [intros [Hlen _]; simpl in Hlen; lia |];
         repeat match goal with |- context [int ?x] => destruct (int x); simpl end;
         eauto; fail).
  rewrite take_0.
  destruct (int c) as [c'|ec] eqn:Hc; simpl.
  2:{ right. split; [|eauto]. intros [_ H]. inversion H; subst.
      rewrite Hc in *. done. }
  destruct (int s) as [s'|es] eqn:Hs; simpl.
  2:{ right. split; [|eauto]. intros [_ H]. inversion H as [|? ? _ H']; subst.
      inversion H'; subst. rewrite Hs in *. done. }
  destruct (int e) as [e'|ee] eqn:He; simpl.
  2:{ right. split; [|eauto]. intros [_ H]. inversion H as [|? ? _ H']; subst.
      inversion H' as [|? ? _ H'']; subst. inversion H''; subst.
      rewrite He in *. done. }
  left. split.
  - split; [lia|]. repeat constructor; by rewrite ?Hc, ?Hs, ?He.
  - exists r, (c', s', e'). done.
Qed.

Lemma line_entry_read_id (k : str) (line : str) (entry : Z * Z * Z) :
  line_entry k line = Some entry -> line_read_id line = Some k.
Proof.
  unfold line_entry, line_read_id.
  destruct (fields line) as [|r [|c [|s [|e rest]]]]; try done.
  case_bool_decide; [by subst|done].
Qed.

Lemma last_occurrence_absent (k : str) (lines : list str) :
  ~ Exists (fun l => line_read_id l = Some k) lines ->
  last_occurrence k lines = None.
Proof.
  induction lines as [|line lines IH]; intros Hn; [done|].
  simpl. rewrite bool_decide_eq_false_2.
  2:{ intros H. apply Hn. by apply Exists_cons_tl. }
  destruct (line_entry k line) as [entry|] eqn:Hentry; [|done].
  exfalso. apply Hn, Exists_cons_hd. by eapply line_entry_read_id.
Qed.

Lemma last_occurrence_present (k : str) (lines : list str) :
  Forall well_formed_line lines ->
  Exists (fun l => line_read_id l = Some k) lines ->
  is_Some (last_occurrence k lines).
Proof.
  induction lines as [|line lines IH]; intros Hwf Hex; [by inversion Hex|].
  apply Forall_cons in Hwf as [Hwf1 Hwf].
  simpl. case_bool_decide as Hrest; [by apply IH|].
  apply Exists_cons in Hex as [Hhd|Htl]; [|done].
  destruct (parse_alignment_line_cases line)
    as [(_ & r & en & _ & Hid & Hen)|[Hnwf _]]; [|done].
  rewrite Hen. rewrite Hid in Hhd. simplify_eq. by rewrite bool_decide_eq_true_2.
Qed.

(** The loop overwrites: after it, a key holds the triple of its last line,
    and the keys of no line keep what the dictionary held before. *)
Lemma load_alignment_lines_ok (lines : list str) (m : gmap str (Z * Z * Z)) :
  Forall well_formed_line lines ->
  exists d, load_alignment_lines lines m = Ok d /\
    forall k, d !! k = match last_occurrence k lines with
                       | Some entry => Some entry
                       | None => m !! k
                       end.
Proof.
  revert m. induction lines as [|line lines IH]; intros m Hwf.
  { exists m. done. }
  apply Forall_cons in Hwf as [Hwf1 Hwf].
  destruct (parse_alignment_line_cases line)
    as [(_ & r & en & Hp & Hid & Hen)|[Hnwf _]]; [|done].
  simpl. rewrite Hp. simpl.
  destruct (IH (<[r:=en]> m) Hwf) as (d & Hd & Hlook).
  exists d. split; [done|]. intros k. rewrite Hlook.
  case_bool_decide as Hrest.
  - destruct (last_occurrence_present k lines Hwf Hrest) as [x ->]. done.
  - rewrite (last_occurrence_absent k lines Hrest). rewrite Hen.
    case_bool_decide; subst; [by rewrite lookup_insert_eq | by rewrite lookup_insert_ne].
Qed.

Lemma load_alignment_lines_fail (lines : list str) (m : gmap str (Z * Z * Z)) :
  Exists (fun l => ~ well_formed_line l) lines ->
  exists e, load_alignment_lines lines m = Raise e.
Proof.
  revert m. induction lines as [|line lines IH]; intros m Hex; [by inversion Hex|].
  simpl.
  destruct (parse_alignment_line_cases line) as [(Hwf & r & en & Hp & _)|[_ [e He]]].
  - rewrite Hp. simpl. apply IH. apply Exists_cons in Hex as [?|?]; done.
  - rewrite He. simpl. eauto.
Qed.




(** ** Dataset loader *)

Lemma slice_to {A} (l : list A) (b : Z) :
  0 <= b -> slice l None (Some b) = take (Z.to_nat b) l.
Proof.
  intros Hb. unfold slice, adjust_index.
  destruct (Z.ltb_spec b 0); [exfalso; lia|]. rewrite Z.sub_0_r. simpl.
  destruct (Z.min_spec b (Z.of_nat (length l))) as [[? ->]|[? ->]]; [done|].
  rewrite Nat2Z.id. rewrite !take_ge; try done; lia.
Qed.

Lemma slice_from {A} (l : list A) (a : Z) :
  0 <= a -> slice l (Some a) None = drop (Z.to_nat a) l.
Proof.
  intros Ha. unfold slice, adjust_index.
  destruct (Z.ltb_spec a 0); [exfalso; lia|].
  destruct (Z.min_spec a (Z.of_nat (length l))) as [[? ->]|[? ->]].
  - apply take_ge. rewrite length_drop. lia.
  - rewrite Z.sub_diag, Nat2Z.id. simpl. rewrite !drop_ge; try done; lia.
Qed.














(** ** Auxiliary vectors *)

#[local] Arguments aux_input_of : simpl never.
#[local] Arguments aux_vector : simpl never.

Lemma aux_vector_length (n : nat) (entry : Z * Z * Z) :
  length (aux_vector n entry) = (n + 2)%nat.
Proof.
  destruct entry as [[c s] e]. unfold aux_vector.
  rewrite length_app, length_insert, length_replicate. simpl. lia.
Qed.



(** With anything but a dictionary for index, the loop never appends an
    auxiliary vector: a string that holds the read identifier cannot be
    subscripted by it, and one that does not is skipped. *)
Lemma load_record_no_dict dev a n label st st' record :
  (forall d, a <> ArgDict d) ->
  load_record dev a n label st record = Ok st' ->
  aux_inputs st' = aux_inputs st.
Proof.
  intros Ha. unfold load_record.
  destruct (_ <? _)%nat; [by intros [= <-]|].
  destruct a as [|s|d]; simpl; [by intros [= <-]| |by destruct (Ha d)].
  destruct (negb _); simpl; [|by intros [= <-]].
  destruct (contains s (id record)); simpl; [done|by intros [= <-]].
Qed.

Lemma load_records_no_dict dev a n label records : forall st st',
  (forall d, a <> ArgDict d) ->
  load_records dev a n label st records = Ok st' ->
  aux_inputs st' = aux_inputs st.
Proof.
  induction records as [|record records IH]; intros st st' Ha Hload; simpl in Hload.
  { by injection Hload as <-. }
  destruct (load_record dev a n label st record) as [st1|e] eqn:Hrec; [|done].
  simpl in Hload. rewrite (IH _ _ Ha Hload). by eapply load_record_no_dict.
Qed.

Lemma load_sequences_no_dict parse_fastq dev file_path a r :
  (forall d, a <> ArgDict d) ->
  load_sequences parse_fastq dev file_path a = Ok r ->
  aux r = None.
Proof.
  intros Ha. unfold load_sequences, load_sequences_with.
  destruct (get_label_from_filename file_path) as [label|]; simpl; [|done].
  destruct (parse_fastq file_path) as [records|]; simpl; [|done].
  destruct (load_records _ _ _ _ _ _) as [st|] eqn:Hload; simpl; [|done].
  intros [= <-]. simpl. by rewrite (load_records_no_dict _ _ _ _ _ _ _ Ha Hload).
Qed.

Lemma train_nn_gather_no_aux parse_fastq dev fastq_files alignment_data : forall g g',
  (forall d, alignment_data <> ArgDict d) ->
  train_nn_gather parse_fastq dev fastq_files alignment_data g = Ok g' ->
  has_aux_inputs g' = has_aux_inputs g /\ all_aux_inputs g' = all_aux_inputs g.
Proof.
  induction fastq_files as [|file_path fastq_files IH]; intros g g' Ha Hg; simpl in Hg.
  { by injection Hg as <-. }
  destruct (load_sequences _ _ _ _) as [r|] eqn:Hr; simpl in Hg; [|done].
  apply load_sequences_no_dict in Hr; [|done].
  apply IH in Hg as [-> ->]; [|done]. simpl. by rewrite Hr.
Qed.

Lemma train_nn_no_aux parse_fastq dev fastq_files alignment_data data :
  (forall d, alignment_data <> ArgDict d) ->
  train_nn parse_fastq dev fastq_files alignment_data = Ok data ->
  data_aux_inputs data = None /\ aux_input_size data = None.
Proof.
  intros Ha. unfold train_nn.
  destruct (train_nn_gather _ _ _ _ _) as [g|] eqn:Hg; simpl; [|done].
  apply train_nn_gather_no_aux in Hg as [Hhas Haux]; [|done]. simpl in *.
  destruct (np_concatenate (all_sequences g)); simpl; [|done].
  destruct (np_concatenate (all_labels g)); simpl; [|done].
  rewrite Hhas. simpl. by intros [= <-].
Qed.

Lemma train_nn_gather_has_aux parse_fastq dev fastq_files alignment_data : forall g g',
  train_nn_gather parse_fastq dev fastq_files alignment_data g = Ok g' ->
  has_aux_inputs g' = true <->
  has_aux_inputs g = true \/
  some_file_has_aux parse_fastq dev fastq_files alignment_data.
Proof.
  unfold some_file_has_aux.
  induction fastq_files as [|file_path fastq_files IH]; intros g g' Hg; simpl in Hg.
  { injection Hg as <-. split; [by left|]. intros [?|(f & r & Hf & _)]; [done|].
    by apply elem_of_nil in Hf. }
  destruct (load_sequences _ _ file_path _) as [r|] eqn:Hr; simpl in Hg; [|done].
  apply IH in Hg. rewrite Hg. simpl. clear Hg IH. split.
  - intros [Hhas|(f & r' & Hf & Hr' & Haux)].
    + destruct (aux r) as [a|] eqn:Ha; [|by left].
      right. exists file_path, r. rewrite Ha. split; [by left|]. eauto.
    + right. exists f, r'. split; [by right|]. done.
  - intros [Hhas|(f & r' & Hf & Hr' & Haux)].
    + left. by destruct (aux r).
    + apply elem_of_cons in Hf as [->|Hf].
      * rewrite Hr in Hr'. injection Hr' as <-. left.
        by destruct Haux as [a ->].
      * right. eauto.
Qed.

(** A run has auxiliary data, of width [NUM_CHROMOSOMES + 2], exactly when
    some file yielded auxiliary vectors. *)
Lemma train_nn_aux_input_size parse_fastq dev fastq_files alignment_data data :
  train_nn parse_fastq dev fastq_files alignment_data = Ok data ->
  (some_file_has_aux parse_fastq dev fastq_files alignment_data ->
     aux_input_size data = Some (NUM_CHROMOSOMES + 2)%nat /\ is_Some (data_aux_inputs data)) /\
  (~ some_file_has_aux parse_fastq dev fastq_files alignment_data ->
     aux_input_size data = None /\ data_aux_inputs data = None).
Proof.
  unfold train_nn.
  destruct (train_nn_gather _ _ _ _ _) as [g|] eqn:Hg; simpl; [|done].
  apply train_nn_gather_has_aux in Hg. simpl in Hg.
  destruct (np_concatenate (all_sequences g)); simpl; [|done].
  destruct (np_concatenate (all_labels g)); simpl; [|done].
  destruct (has_aux_inputs g).
  - destruct (np_concatenate (all_aux_inputs g)); simpl; [|done].
    intros [= <-]. simpl. split; [eauto|].
    intros Hno. exfalso. apply Hno. destruct Hg as [[?|?] _]; done.
  - simpl. intros [= <-]. simpl. split; [|done].
    intros Hsome. destruct Hg as [_ Hg]. by discriminate Hg; right.
Qed.

(** No run of the [train] command has auxiliary data, whatever the value of
    [--alignment-data]: [train_nn] hands the option's string to the loader,
    never the index read from that file. *)
Lemma train_no_aux parse_fastq dev fastq_files alignment_data data :
  train parse_fastq dev fastq_files alignment_data = Ok data ->
  data_aux_inputs data = None /\ aux_input_size data = None.
Proof.
  apply train_nn_no_aux. by destruct alignment_data.
Qed.

(** C1, at the failing input. The table [align.csv] lists the read [r1] of
    [reads__1.fastq], and the index built from it holds the read; the training
    run with that table attaches no auxiliary vector and has no auxiliary
    width, because [train_nn] passes the path where [predict_nn] passes the
    index. The loader called as [predict_nn] calls it does attach the vector:
    one-hot chromosome 3 of [NUM_CHROMOSOMES], then 10 and 160. *)
Theorem train_nn_drops_alignment_index :
  (exists d, load_alignment_info one_read_table = Ok d /\
             d !! s2l "r1" = Some (3, 10, 160)) /\
  (exists data,
     train one_read_fastq CPU [s2l "reads__1.fastq"] (Some (s2l "align.csv")) = Ok data /\
     data_aux_inputs data = None /\ aux_input_size data = None) /\
  aux <$> (load_alignment_info one_read_table ≫= fun d =>
           load_sequences one_read_fastq CPU (s2l "reads__1.fastq") (ArgDict d))
    = Ok (Some [aux_vector NUM_CHROMOSOMES (3, 10, 160)]) /\
  length (aux_vector NUM_CHROMOSOMES (3, 10, 160)) = (NUM_CHROMOSOMES + 2)%nat.
Proof.
  split; [|split; [|split]].
  - destruct (load_alignment_info one_read_table) as [d|] eqn:Hd;
      [|by vm_compute in Hd].
    exists d. split; [done|].
    assert ((fun d => d !! s2l "r1") <$> load_alignment_info one_read_table
            = Ok (Some (3, 10, 160))) as H by (vm_compute; reflexivity).
    rewrite Hd in H. by injection H.
  - destruct (train one_read_fastq CPU [s2l "reads__1.fastq"] (Some (s2l "align.csv")))
      as [data|] eqn:Hdata; [|by vm_compute in Hdata].
    exists data. split; [done|]. by eapply train_no_aux.
  - vm_compute. reflexivity.
  - apply aux_vector_length.
Qed.

(** ** Split engine *)

Lemma swap_perm {A} (x : list A) (i j : nat) : swap x i j ≡ₚ x.
Proof.
  unfold swap.
  destruct (x !! i) as [a|] eqn:Hi; [|done].
  destruct (x !! j) as [b|] eqn:Hj; [|done].
  by apply Permutation_insert_swap.
Qed.

Lemma shuffle_loop_perm {A} rng (i : nat) : forall (k : nat) (x : list A),
  shuffle_loop rng k i x ≡ₚ x.
Proof.
  induction i as [|i IH]; intros k x; simpl; [done|].
  rewrite IH. apply swap_perm.
Qed.

Lemma shuffle_perm {A} rng (x : list A) : shuffle rng x ≡ₚ x.
Proof. apply shuffle_loop_perm. Qed.

Lemma range_length (n : Z) : length (range n) = Z.to_nat n.
Proof. unfold range. by rewrite length_fmap, length_seq. Qed.


Lemma range_elem_of (n i : Z) : i ∈ range n <-> 0 <= i < n.
Proof.
  unfold range. rewrite list_elem_of_fmap. split.
  - intros (k & -> & Hk). apply elem_of_seq in Hk. lia.
  - intros Hi. exists (Z.to_nat i). split; [lia|]. apply elem_of_seq. lia.
Qed.

Lemma slice_between {A} (l : list A) (a b : Z) :
  0 <= a -> 0 <= b ->
  slice l (Some a) (Some b)
  = take (Z.to_nat b - Z.to_nat a) (drop (Z.to_nat a) l).
Proof.
  intros Ha Hb. unfold slice, adjust_index.
  destruct (Z.ltb_spec a 0); [exfalso; lia|].
  destruct (Z.ltb_spec b 0); [exfalso; lia|].
  set (len := Z.of_nat (length l)).
  destruct (Z.le_gt_cases a len) as [Hal|Hal].
  - rewrite (Z.min_l a len) by lia.
    destruct (Z.le_gt_cases b len) as [Hbl|Hbl].
    + rewrite (Z.min_l b len) by lia. f_equal. lia.
    + rewrite (Z.min_r b len) by lia.
      rewrite !take_ge; try done; rewrite length_drop; lia.
  - rewrite (Z.min_r a len) by lia.
    rewrite !drop_ge by lia. by rewrite !take_nil.
Qed.

Lemma int_of_float_nonneg (x : Q) :
  (0 <= x)%Q -> int_of_float x = Qfloor x /\ 0 <= Qfloor x.
Proof.
  destruct x as [n d]. unfold Qle, int_of_float, Qfloor. simpl.
  intros Hn. rewrite Z.mul_1_r in Hn.
  split; [apply Z.quot_div_nonneg; lia | apply Z.div_pos; lia].
Qed.


Lemma floor_scaled_nonneg (N : Z) (p : Q) :
  0 <= N -> (0 <= p)%Q ->
  int_of_float (inject_Z N * p) = Qfloor (inject_Z N * p) /\
  0 <= Qfloor (inject_Z N * p).
Proof.
  intros HN Hp. apply int_of_float_nonneg.
  apply Qmult_le_0_compat; [|done].
  change 0%Q with (inject_Z 0). by rewrite <- Zle_Qle.
Qed.

Lemma split_shape rng (N : Z) (train_ratio test_ratio : Q) :
  0 <= N -> (0 <= train_ratio)%Q -> (0 <= test_ratio)%Q ->
  exists a b : nat,
    Z.of_nat a = Qfloor (inject_Z N * train_ratio) /\
    Z.of_nat b = Qfloor (inject_Z N * train_ratio) + Qfloor (inject_Z N * test_ratio) /\
    (a <= b)%nat /\
    train_test_val_split rng N train_ratio test_ratio =
      (take a (shuffle rng (range N)),
       take (b - a) (drop a (shuffle rng (range N))),
       drop b (shuffle rng (range N))).
Proof.
  intros HN Htr Hte. unfold train_test_val_split.
  destruct (floor_scaled_nonneg N train_ratio HN Htr) as [-> ?].
  destruct (floor_scaled_nonneg N test_ratio HN Hte) as [-> ?].
  set (tn := Qfloor (inject_Z N * train_ratio)) in *.
  set (sn := Qfloor (inject_Z N * test_ratio)) in *.
  exists (Z.to_nat tn), (Z.to_nat (tn + sn)).
  split; [lia|]. split; [lia|]. split; [lia|].
  rewrite slice_to, slice_between, slice_from by lia. done.
Qed.

Lemma take_drop_partition {A} (l : list A) (a b : nat) :
  (a <= b)%nat -> take a l ++ take (b - a) (drop a l) ++ drop b l = l.
Proof.
  intros Hab. rewrite app_assoc, take_take_drop.
  replace (a + (b - a))%nat with b by lia. apply take_drop.
Qed.

(** The three lists of a split, for any ratios that are not negative. *)
Lemma split_partition rng (N : Z) (train_ratio test_ratio : Q) :
  0 <= N -> (0 <= train_ratio)%Q -> (0 <= test_ratio)%Q ->
  let '(train, test, val) := train_test_val_split rng N train_ratio test_ratio in
  let train_n := Qfloor (inject_Z N * train_ratio) in
  let test_n := Qfloor (inject_Z N * test_ratio) in
  train ++ test ++ val ≡ₚ range N /\
  Z.of_nat (length train) = Z.min train_n N /\
  Z.of_nat (length test) = Z.min (train_n + test_n) N - Z.min train_n N /\
  Z.of_nat (length val) = N - Z.min (train_n + test_n) N.
Proof.
  intros HN Htr Hte.
  destruct (split_shape rng N train_ratio test_ratio HN Htr Hte)
    as (a & b & Ha & Hb & Hab & ->).
  cbv beta iota zeta. rewrite <- Hb, <- Ha.
  assert (length (shuffle rng (range N)) = Z.to_nat N) as Hlen.
  { rewrite (Permutation_length (shuffle_perm rng (range N))). apply range_length. }
  split; [by rewrite take_drop_partition, shuffle_perm|].
  rewrite !length_take, !length_drop, Hlen. lia.
Qed.






(** ** Inference report *)




















(** What [predict_nn] prints for a file: the loader's two lines, the header,
    and the lines of [class_report] for the classifier's logits. *)
Lemma predict_file_report parse_fastq read_lines dev model fastq_path alignment_data out :
  predict_file parse_fastq read_lines dev model fastq_path alignment_data = Ok out ->
  exists r predictions,
    model (sequences r) (aux r) = Ok predictions /\
    out = output r ++ [PredictionsFor fastq_path]
            ++ ((fun '(cls, count, pct) => ClassLine cls count pct)
                  <$> class_report predictions).
Proof.
  unfold predict_file.
  destruct (match alignment_data with None => _ | Some _ => _ end) as [a|];
    simpl; [|done].
  destruct (load_sequences _ _ _ _) as [r|]; simpl; [|done].
  destruct (model _ _) as [predictions|] eqn:Hm; simpl; [|done].
  intros [= <-]. eauto.
Qed.

(** ** Label extraction *)

Lemma startswith_app (sub t : str) : startswith sub (sub ++ t) = true.
Proof. induction sub as [|a sub IH]; simpl; [done|]. by rewrite Ascii.eqb_refl. Qed.

Lemma startswith_inv (sub s : str) :
  startswith sub s = true -> exists t, s = sub ++ t.
Proof.
  revert s. induction sub as [|a sub IH]; intros s; simpl; [eauto|].
  destruct s as [|b s]; [done|].
  destruct (Ascii.eqb_spec a b) as [->|]; [|done].
  intros [t ->]%IH. eauto.
Qed.

Lemma contains_cons (sub : str) (c : ascii) (s : str) :
  contains (c :: s) sub = startswith sub (c :: s) || contains s sub.
Proof. done. Qed.

Lemma rfind_from_absent (sub s : str) : forall i found,
  contains s sub = false -> rfind_from sub s i found = found.
Proof.
  induction s as [|c s IH]; intros i found Hc.
  - simpl in *. apply orb_false_elim in Hc as [-> _]. done.
  - rewrite contains_cons in Hc. apply orb_false_elim in Hc as [Hs Hc].
    simpl rfind_from. rewrite Hs. by apply IH.
Qed.

Lemma rfind_from_skip (sub pre s : str) : forall i found,
  exists found', rfind_from sub (pre ++ s) i found
                 = rfind_from sub s (i + Z.of_nat (length pre)) found'.
Proof.
  induction pre as [|c pre IH]; intros i found.
  - exists found. simpl. f_equal. lia.
  - simpl app. simpl rfind_from.
    destruct (IH (i + 1) (if startswith sub (c :: pre ++ s) then i else found))
      as [found' ->].
    exists found'. f_equal. simpl length. lia.
Qed.

(** The last occurrence: [sub] occurs after [pre] and not later. *)
Lemma rfind_last (sub pre : str) (c : ascii) (s : str) :
  startswith sub (c :: s) = true ->
  contains s sub = false ->
  rfind (pre ++ c :: s) sub = Z.of_nat (length pre).
Proof.
  intros Hstart Hlater. unfold rfind.
  destruct (rfind_from_skip sub pre (c :: s) 0 (-1)) as [found' ->].
  simpl rfind_from. rewrite Hstart. by rewrite rfind_from_absent.
Qed.

Lemma rfind_absent (sub s : str) : contains s sub = false -> rfind s sub = -1.
Proof. apply rfind_from_absent. Qed.

Lemma contains_char (c : ascii) (s : str) : contains s [c] = false <-> c ∉ s.
Proof.
  induction s as [|b s IH].
  - simpl. split; [intros _; apply not_elem_of_nil | done].
  - rewrite contains_cons, not_elem_of_cons, <- IH. simpl.
    destruct (Ascii.eqb_spec c b) as [->|Hne]; simpl.
    + split; [done|]. intros [? _]. done.
    + split; [done|]. intros [_ ?]. done.
Qed.

Lemma rfind_char_last (c : ascii) (pre post : str) :
  c ∉ post -> rfind (pre ++ c :: post) [c] = Z.of_nat (length pre).
Proof.
  intros Hpost. apply rfind_last.
  - simpl. by rewrite Ascii.eqb_refl.
  - by apply contains_char.
Qed.

Lemma rfind_char_absent (c : ascii) (s : str) : c ∉ s -> rfind s [c] = -1.
Proof. intros. by apply rfind_absent, contains_char. Qed.

Lemma basename_plain (base : str) :
  "/"%char ∉ base -> basename base = base.
Proof.
  intros Hb. unfold basename. change (s2l "/") with ["/"%char].
  rewrite rfind_char_absent by done. simpl. by rewrite slice_from.
Qed.

Lemma basename_dir (d base : str) :
  "/"%char ∉ base -> basename (d ++ "/"%char :: base) = base.
Proof.
  intros Hb. unfold basename. change (s2l "/") with ["/"%char].
  rewrite rfind_char_last by done. rewrite slice_from by lia.
  replace (Z.to_nat (Z.of_nat (length d) + 1)) with (length (d ++ ["/"%char]))
    by (rewrite length_app; simpl; lia).
  rewrite (cons_middle _ d base), app_assoc. by rewrite drop_app_length.
Qed.

Lemma forallb_dots_false (b : str) (c : ascii) :
  c ∈ b -> c <> "."%char -> forallb (fun c => Ascii.eqb c ".") b = false.
Proof.
  intros Hc Hne. apply not_true_is_false. intros Hall.
  rewrite forallb_forall in Hall. apply list_elem_of_In, Hall in Hc.
  by apply Ascii.eqb_eq in Hc.
Qed.

Lemma splitext_ext (b e : str) (c : ascii) :
  "/"%char ∉ b ++ e -> "."%char ∉ e -> c ∈ b -> c <> "."%char ->
  splitext (b ++ "."%char :: e) = (b, "."%char :: e).
Proof.
  intros Hsep Hdot Hc Hne. unfold splitext.
  change (s2l "/") with ["/"%char]. change (s2l ".") with ["."%char].
  rewrite rfind_char_absent.
  2:{ rewrite not_elem_of_app in Hsep. rewrite not_elem_of_app, not_elem_of_cons.
      destruct Hsep. done. }
  rewrite rfind_char_last by done.
  destruct (Z.ltb_spec (-1) (Z.of_nat (length b))); [|exfalso; lia].
  rewrite slice_between, slice_to, slice_from by lia.
  change (Z.to_nat (-1 + 1)) with 0%nat.
  rewrite Nat2Z.id, Nat.sub_0_r, drop_0, take_app_length, drop_app_length.
  by rewrite (forallb_dots_false b c).
Qed.

Lemma splitext_none (p : str) :
  "/"%char ∉ p -> "."%char ∉ p -> splitext p = (p, []).
Proof.
  intros Hsep Hdot. unfold splitext.
  change (s2l "/") with ["/"%char]. change (s2l ".") with ["."%char].
  by rewrite !rfind_char_absent.
Qed.

(** Two extensions are removed, and what precedes them is left as it is. *)
Lemma label_filename_two_extensions (dir b ext1 ext2 : str) (c : ascii) :
  dir = [] \/ (exists d, dir = d ++ ["/"%char]) ->
  "/"%char ∉ b ++ ext1 ++ ext2 -> "."%char ∉ ext1 ++ ext2 ->
  c ∈ b -> c <> "."%char ->
  label_filename (dir ++ b ++ "."%char :: ext1 ++ "."%char :: ext2) = b.
Proof.
  intros Hdir Hsep Hdot Hc Hne. unfold label_filename.
  rewrite !not_elem_of_app in Hsep. destruct Hsep as (Hb & H1 & H2).
  rewrite not_elem_of_app in Hdot. destruct Hdot as [Hd1 Hd2].
  assert (basename (dir ++ b ++ "."%char :: ext1 ++ "."%char :: ext2)
          = (b ++ "."%char :: ext1) ++ "."%char :: ext2) as ->.
  { rewrite <- app_assoc. simpl.
    assert ("/"%char ∉ b ++ "."%char :: ext1 ++ "."%char :: ext2) as Hbase.
    { rewrite not_elem_of_app, not_elem_of_cons, not_elem_of_app, not_elem_of_cons.
      done. }
    destruct Hdir as [->|[d ->]]; [by apply basename_plain|].
    rewrite <- app_assoc. simpl. by apply basename_dir. }
  rewrite (splitext_ext (b ++ "."%char :: ext1) ext2 c); try done.
  - simpl. rewrite (splitext_ext b ext1 c); try done.
    by rewrite not_elem_of_app.
  - rewrite <- app_assoc. simpl.
    rewrite not_elem_of_app, not_elem_of_cons, not_elem_of_app. done.
  - rewrite elem_of_app. by left.
Qed.



Lemma get_label_last_delimiter (file_path stem suffix : str) :
  last_delimiter (label_filename file_path) stem suffix ->
  get_label_from_filename file_path = int suffix.
Proof.
  intros [Heq Hlast]. unfold get_label_from_filename. rewrite Heq.
  fold delimiter. change (stem ++ delimiter ++ suffix)
    with (stem ++ "_"%char :: "_"%char :: suffix).
  rewrite rfind_last by done.
  destruct (Z.eqb_spec (Z.of_nat (length stem)) (-1)); [exfalso; lia|]. simpl.
  rewrite slice_from by lia.
  replace (Z.to_nat (Z.of_nat (length stem) + 2))
    with (length (stem ++ delimiter)) by (rewrite length_app; simpl; lia).
  change (stem ++ "_"%char :: "_"%char :: suffix) with (stem ++ delimiter ++ suffix).
  by rewrite app_assoc, drop_app_length.
Qed.

Lemma get_label_no_delimiter (file_path : str) :
  contains (label_filename file_path) delimiter = false ->
  get_label_from_filename file_path = Raise invalid_filename.
Proof.
  intros Hc. unfold get_label_from_filename. fold delimiter.
  by rewrite rfind_absent.
Qed.


Lemma is_digit_value (c : ascii) :
  is_digit c -> digit_value c = Some (Z.of_nat (nat_of_ascii c) - 48).
Proof.
  unfold is_digit, digit_value. intros [H1 H2].
  destruct (Z.leb_spec 48 (Z.of_nat (nat_of_ascii c))); [|exfalso; lia].
  destruct (Z.leb_spec (Z.of_nat (nat_of_ascii c)) 57); [|exfalso; lia].
  done.
Qed.

Lemma is_digit_not (c d : ascii) :
  is_digit c -> digit_value d = None -> Ascii.eqb c d = false.
Proof.
  intros Hc Hd. destruct (Ascii.eqb_spec c d) as [->|]; [|done].
  by rewrite is_digit_value in Hd.
Qed.

Lemma is_digit_not_space (c : ascii) : is_digit c -> isspace c = false.
Proof.
  unfold is_digit, isspace. intros [H1 H2].
  repeat match goal with
  | |- context [?a <=? ?b] => destruct (Z.leb_spec a b)
  | |- context [?a =? ?b] => destruct (Z.eqb_spec a b)
  end; simpl; try done; exfalso; lia.
Qed.

Lemma scan_digits_all (digits : str) : forall prev acc n,
  Forall is_digit digits -> digits <> [] ->
  scan_digits digits prev acc n =
    Some (foldl (fun acc c => 10 * acc + (Z.of_nat (nat_of_ascii c) - 48)) acc digits,
          n + Z.of_nat (length digits)).
Proof.
  induction digits as [|c digits IH]; intros prev acc n Hall Hne; [done|].
  apply Forall_cons in Hall as [Hc Hall]. simpl scan_digits.
  rewrite (is_digit_not c "_") by done.
  rewrite is_digit_value by done.
  destruct digits as [|c' digits].
  - simpl. do 2 f_equal.
  - rewrite IH by done. simpl. do 2 f_equal. lia.
Qed.

Lemma lstrip_nonspace (c : ascii) (s : str) :
  isspace c = false -> lstrip (c :: s) = c :: s.
Proof. intros H. simpl. by rewrite H. Qed.

Lemma strip_digits (digits : str) : Forall is_digit digits -> strip digits = digits.
Proof.
  intros Hall. unfold strip.
  destruct digits as [|c digits]; [done|].
  rewrite lstrip_nonspace.
  2:{ apply is_digit_not_space. by apply Forall_cons in Hall as [? _]. }
  apply Forall_rev in Hall.
  destruct (rev (c :: digits)) as [|d r] eqn:Hrev.
  { apply (f_equal (@length ascii)) in Hrev. rewrite length_rev in Hrev. done. }
  rewrite lstrip_nonspace.
  2:{ apply is_digit_not_space. by apply Forall_cons in Hall as [? _]. }
  by rewrite <- Hrev, rev_involutive.
Qed.

(** [int] on a plain decimal literal. *)
Lemma int_digits (digits : str) :
  Forall is_digit digits -> digits <> [] ->
  Z.of_nat (length digits) <= max_str_digits ->
  int digits = Ok (decimal_value digits).
Proof.
  intros Hall Hne Hlen. unfold int. rewrite strip_digits by done.
  destruct digits as [|c digits]; [done|].
  assert (is_digit c) as Hc by (by apply Forall_cons in Hall as [? _]).
  rewrite (is_digit_not c "-"), (is_digit_not c "+") by done.
  rewrite scan_digits_all by done.
  destruct (Z.ltb_spec max_str_digits (0 + Z.of_nat (length (c :: digits))));
    [exfalso; lia|].
  unfold decimal_value. f_equal. lia.
Qed.

Lemma contains_no_first (sub : str) (c : ascii) (t : str) :
  c ∉ t -> contains t (c :: sub) = false.
Proof.
  induction t as [|b t IH]; intros Hc; [done|].
  apply not_elem_of_cons in Hc as [Hne Hc].
  rewrite contains_cons, IH by done. simpl.
  destruct (Ascii.eqb_spec c b); done.
Qed.




(** ** One-hot encoding *)

Lemma np_eye_lookup (n i : nat) :
  (i < n)%nat -> np_eye n !! i = Some (unit_row n i).
Proof.
  intros Hi. unfold np_eye. rewrite list_lookup_fmap, lookup_seq_lt by done. done.
Qed.

Lemma np_eye_length (n : nat) : length (np_eye n) = n.
Proof. unfold np_eye. by rewrite length_fmap, length_seq. Qed.

Lemma np_getitem_spec {A} (a : list A) (i : Z) :
  (- Z.of_nat (length a) <= i < Z.of_nat (length a) ->
     exists x, np_getitem a i = Ok x /\
       a !! Z.to_nat (if i <? 0 then i + Z.of_nat (length a) else i) = Some x) /\
  (~ - Z.of_nat (length a) <= i < Z.of_nat (length a) ->
     np_getitem a i = Raise IndexError).
Proof.
  unfold np_getitem, getitem.
  destruct (Z.leb_spec (- Z.of_nat (length a)) i), (Z.ltb_spec i (Z.of_nat (length a)));
    simpl; split; try (intros; exfalso; lia); try done.
  intros _.
  destruct (a !! _) as [x|] eqn:Hx; [eauto|].
  apply lookup_ge_None in Hx. destruct (Z.ltb_spec i 0); lia.
Qed.

Lemma argmax_from_le (row : list Q) : forall i best bv,
  Forall (fun v => (v <= bv)%Q) row -> argmax_from row i best bv = best.
Proof.
  induction row as [|v row IH]; intros i best bv Hall; [done|].
  apply Forall_cons in Hall as [Hv Hall]. simpl.
  destruct (Qlt_le_dec bv v) as [Hlt|_]; [|by apply IH].
  exfalso. by apply (Qlt_not_le _ _ Hlt).
Qed.

Lemma argmax_from_unit (zeros rest : list Q) : forall i best,
  Forall (fun v => v = 0%Q) zeros -> Forall (fun v => v = 0%Q) rest ->
  argmax_from (zeros ++ 1%Q :: rest) i best 0%Q = (i + length zeros)%nat.
Proof.
  induction zeros as [|z zeros IH]; intros i best Hz Hr.
  - simpl. destruct (Qlt_le_dec 0 1) as [_|Hle]; [|by exfalso].
    rewrite argmax_from_le; [lia|].
    eapply Forall_impl; [exact Hr|]. by intros v ->.
  - apply Forall_cons in Hz as [-> Hz]. simpl.
    destruct (Qlt_le_dec 0 0) as [Hlt|_]; [by exfalso|].
    rewrite IH by done. lia.
Qed.

Lemma unit_row_split (n i : nat) :
  (i < n)%nat ->
  unit_row n i = replicate i 0%Q ++ 1%Q :: replicate (n - i - 1) 0%Q.
Proof.
  intros Hi. unfold unit_row.
  replace n with (i + (1 + (n - i - 1)))%nat at 1 by lia.
  rewrite !seq_app, !fmap_app. simpl. f_equal; [|f_equal].
  - apply list_eq. intros j. rewrite list_lookup_fmap.
    destruct (decide (j < i)%nat).
    + rewrite lookup_seq_lt, lookup_replicate_2 by done. simpl.
      by rewrite bool_decide_eq_false_2 by lia.
    + rewrite lookup_seq_ge by lia. symmetry. apply lookup_ge_None_2.
      rewrite length_replicate. lia.
  - by rewrite bool_decide_eq_true_2 by lia.
  - apply list_eq. intros j. rewrite list_lookup_fmap.
    destruct (decide (j < n - i - 1)%nat).
    + rewrite lookup_seq_lt, lookup_replicate_2 by done. simpl.
      by rewrite bool_decide_eq_false_2 by lia.
    + rewrite lookup_seq_ge by lia. symmetry. apply lookup_ge_None_2.
      rewrite length_replicate. lia.
Qed.

Lemma argmax_unit_row (n i : nat) : (i < n)%nat -> argmax (unit_row n i) = i.
Proof.
  intros Hi. rewrite unit_row_split by done.
  destruct i as [|i]; simpl.
  - apply argmax_from_le. apply Forall_replicate. done.
  - rewrite (argmax_from_unit (replicate i 0%Q)).
    + by rewrite length_replicate.
    + by apply Forall_replicate.
    + by apply Forall_replicate.
Qed.

Lemma np_take_spec {A} (a : list A) (indices : list Z) :
  (Forall (fun i => - Z.of_nat (length a) <= i < Z.of_nat (length a)) indices ->
     exists xs, np_take a indices = Ok xs /\
       Forall2 (fun i x => a !! label_row (length a) i = Some x) indices xs) /\
  (Exists (fun i => ~ - Z.of_nat (length a) <= i < Z.of_nat (length a)) indices ->
     np_take a indices = Raise IndexError).
Proof.
  induction indices as [|i indices [IHok IHbad]]; simpl.
  { split; [eauto|]. intros H. inversion H. }
  destruct (decide (- Z.of_nat (length a) <= i < Z.of_nat (length a))) as [Hi|Hi].
  - destruct (proj1 (np_getitem_spec a i) Hi) as (x & -> & Hx). simpl. split.
    + intros [_ Hall]%Forall_cons. destruct (IHok Hall) as (xs & -> & Hxs).
      simpl. eexists. split; [done|]. by constructor.
    + intros [?|Hex]%Exists_cons; [done|]. by rewrite (IHbad Hex).
  - rewrite (proj2 (np_getitem_spec a i) Hi). simpl. split; [|done].
    by intros [? _]%Forall_cons.
Qed.

Lemma one_hot_encode_rows (labels : list Z) (num_classes : nat) :
  Forall (fun l => - Z.of_nat num_classes <= l < Z.of_nat num_classes) labels ->
  one_hot_encode labels num_classes
    = Ok ((fun l => unit_row num_classes (label_row num_classes l)) <$> labels).
Proof.
  unfold one_hot_encode.
  pose proof (np_take_spec (np_eye num_classes) labels) as [Hok _].
  rewrite np_eye_length in *.
  intros Hall. destruct (Hok Hall) as (rows & -> & Hrows). f_equal.
  clear Hok. induction Hrows as [|l row labels rows Hrow _ IH]; [done|].
  apply Forall_cons in Hall as [Hl Hall]. rewrite fmap_cons. f_equal; [|by apply IH].
  rewrite np_eye_lookup in Hrow; [by injection Hrow|].
  unfold label_row. destruct (Z.ltb_spec l 0); lia.
Qed.



(** X2. For labels in [0, num_classes), one_hot_encode returns one row of
    num_classes entries per label, and the argmax of each row gives the
    label back. *)
Theorem one_hot_encode_argmax (labels : list Z) (num_classes : nat) :
  Forall (fun l => 0 <= l < Z.of_nat num_classes) labels ->
  exists rows,
    one_hot_encode labels num_classes = Ok rows /\
    Forall (fun row => length row = num_classes) rows /\
    (fun row => Z.of_nat (argmax row)) <$> rows = labels.
Proof.
  intros Hall.
  eexists. split.
  { apply one_hot_encode_rows. eapply Forall_impl; [exact Hall|]. simpl. lia. }
  split.
  - apply Forall_fmap, Forall_forall. intros l _. simpl.
    unfold unit_row. by rewrite length_fmap, length_seq.
  - rewrite <- list_fmap_compose.
    induction Hall as [|l labels Hl _ IH]; [done|].
    rewrite fmap_cons, IH. f_equal. simpl.
    unfold label_row. destruct (Z.ltb_spec l 0); [lia|].
    rewrite argmax_unit_row by lia. lia.
Qed.

Lemma one_hot_encode_argmax_witness :
  exists rows,
    one_hot_encode [0; 3; 4] NUM_CLASSES = Ok rows /\
    Forall (fun row => length row = NUM_CLASSES) rows /\
    (fun row => Z.of_nat (argmax row)) <$> rows = [0; 3; 4].
Proof.
  apply (one_hot_encode_argmax [0; 3; 4] NUM_CLASSES).
  repeat constructor; vm_compute; congruence.
Defined.

(** ** Label extraction: directories, extensions, signs *)

Lemma last_delimiter_no_underscore (stem suffix : str) :
  "_"%char ∉ suffix -> last_delimiter (stem ++ delimiter ++ suffix) stem suffix.
Proof.
  intros Hnot. split; [done|].
  rewrite contains_cons. change delimiter with ["_"; "_"]%char.
  rewrite contains_no_first by done. rewrite orb_false_r.
  apply not_true_is_false. intros [t Ht]%startswith_inv.
  injection Ht as ->. apply Hnot. by left.
Qed.

Lemma get_label_suffix (file_path stem suffix : str) :
  label_filename file_path = stem ++ delimiter ++ suffix ->
  "_"%char ∉ suffix ->
  get_label_from_filename file_path = int suffix.
Proof.
  intros Hname Hnot. apply (get_label_last_delimiter _ stem).
  rewrite Hname. by apply last_delimiter_no_underscore.
Qed.

Lemma is_digit_not_underscore (digits : str) :
  Forall is_digit digits -> "_"%char ∉ digits.
Proof.
  intros Hall Hin. rewrite Forall_forall in Hall. apply Hall in Hin.
  unfold is_digit in Hin. vm_compute in Hin. destruct Hin as [_ Hin]. by apply Hin.
Qed.

Lemma label_filename_basename (file_path : str) :
  label_filename file_path = (splitext (splitext (basename file_path)).1).1.
Proof. done. Qed.

(** X3. The directory of a path plays no part in its label: for a base name
    without a slash, dir/base is cut down to the same file name and gives
    the same result, label or exception, as the base name alone. *)
Theorem get_label_ignores_directory (dir base : str) :
  "/"%char ∉ base ->
  label_filename (dir ++ "/"%char :: base) = label_filename base /\
  get_label_from_filename (dir ++ "/"%char :: base) = get_label_from_filename base.
Proof.
  intros Hbase.
  assert (label_filename (dir ++ "/"%char :: base) = label_filename base) as Hname.
  { unfold label_filename. by rewrite basename_dir, basename_plain. }
  split; [done|]. unfold get_label_from_filename. by rewrite Hname.
Qed.

Lemma get_label_ignores_directory_witness :
  get_label_from_filename (s2l "data/reads__2.fastq.gz")
  = get_label_from_filename (s2l "reads__2.fastq.gz").
Proof.
  refine (proj2 (get_label_ignores_directory (s2l "data") (s2l "reads__2.fastq.gz") _)).
  apply (bool_decide_unpack _). vm_compute. exact I.
Defined.

Lemma label_filename_one_extension (b ext : str) (c : ascii) :
  "/"%char ∉ b ++ ext -> "."%char ∉ b -> "."%char ∉ ext -> c ∈ b -> c <> "."%char ->
  label_filename (b ++ "."%char :: ext) = b.
Proof.
  intros Hsep Hb Hext Hc Hne. unfold label_filename.
  rewrite basename_plain.
  2:{ rewrite not_elem_of_app in Hsep. rewrite not_elem_of_app, not_elem_of_cons.
      destruct Hsep. done. }
  rewrite (splitext_ext b ext c) by done. simpl.
  rewrite (splitext_none b); [done| |done].
  rewrite not_elem_of_app in Hsep. by destruct Hsep.
Qed.

Lemma label_filename_no_extension (b : str) :
  "/"%char ∉ b -> "."%char ∉ b -> label_filename b = b.
Proof.
  intros Hsep Hb. unfold label_filename.
  rewrite basename_plain by done. rewrite (splitext_none b) by done. simpl.
  by rewrite (splitext_none b).
Qed.

Lemma delimiter_elem (stem suffix : str) : "_"%char ∈ stem ++ delimiter ++ suffix.
Proof. rewrite !elem_of_app. right. left. by left. Qed.

(** X4. A name stem__digits whose stem holds no dot yields the value of the
    digits as label also with a single extension and with none: the second
    splitext finds no dot and removes nothing. *)
Theorem get_label_fewer_extensions (stem digits ext : str) :
  "/"%char ∉ (stem ++ delimiter ++ digits) ++ ext ->
  "."%char ∉ stem -> "."%char ∉ ext ->
  Forall is_digit digits -> digits <> [] ->
  Z.of_nat (length digits) <= max_str_digits ->
  get_label_from_filename ((stem ++ delimiter ++ digits) ++ "."%char :: ext)
    = Ok (decimal_value digits) /\
  get_label_from_filename (stem ++ delimiter ++ digits) = Ok (decimal_value digits).
Proof.
  intros Hsep Hstem Hext Hall Hne Hlen.
  assert ("."%char ∉ stem ++ delimiter ++ digits) as Hb.
  { rewrite !not_elem_of_app. split; [done|]. split; [apply (bool_decide_unpack _); by vm_compute|].
    intros Hin. rewrite Forall_forall in Hall. apply Hall in Hin.
    unfold is_digit in Hin. vm_compute in Hin. destruct Hin as [Hin _]. by apply Hin. }
  split.
  - rewrite (get_label_suffix _ stem digits).
    + by apply int_digits.
    + apply (label_filename_one_extension _ _ "_"); try done. apply delimiter_elem.
    + by apply is_digit_not_underscore.
  - rewrite (get_label_suffix _ stem digits).
    + by apply int_digits.
    + apply label_filename_no_extension; [|done].
      rewrite not_elem_of_app in Hsep. by destruct Hsep.
    + by apply is_digit_not_underscore.
Qed.

Lemma get_label_fewer_extensions_witness :
  get_label_from_filename (s2l "reads__2.fastq") = Ok 2 /\
  get_label_from_filename (s2l "reads__2") = Ok 2.
Proof.
  apply (get_label_fewer_extensions (s2l "reads") (s2l "2") (s2l "fastq")).
  - apply (bool_decide_unpack _). vm_compute. exact I.
  - apply (bool_decide_unpack _). vm_compute. exact I.
  - apply (bool_decide_unpack _). vm_compute. exact I.
  - repeat constructor; vm_compute; discriminate.
  - discriminate.
  - vm_compute. discriminate.
Defined.

(** X5. With a single extension, a dot in the stem takes the place of the
    second extension: pre.rest.ext, with no dot in rest and ext and a symbol
    other than a dot in pre, is cut down to pre, so a label written after
    that dot is lost, and when pre holds no delimiter the call raises the
    ValueError for an invalid filename. *)
Theorem get_label_dotted_stem (pre rest ext : str) (c : ascii) :
  "/"%char ∉ pre ++ rest ++ ext ->
  "."%char ∉ rest -> "."%char ∉ ext ->
  c ∈ pre -> c <> "."%char ->
  label_filename (pre ++ "."%char :: rest ++ "."%char :: ext) = pre /\
  (contains pre delimiter = false ->
   get_label_from_filename (pre ++ "."%char :: rest ++ "."%char :: ext)
     = Raise invalid_filename).
Proof.
  intros Hsep Hrest Hext Hc Hne.
  assert (label_filename (pre ++ "."%char :: rest ++ "."%char :: ext) = pre) as Hname.
  { apply (label_filename_two_extensions [] pre rest ext c); try done.
    - by left.
    - by rewrite not_elem_of_app. }
  split; [done|]. intros Hno. apply get_label_no_delimiter. by rewrite Hname.
Qed.

Lemma get_label_dotted_stem_witness :
  label_filename (s2l "v1.2__3.fastq") = s2l "v1" /\
  (contains (s2l "v1") delimiter = false ->
   get_label_from_filename (s2l "v1.2__3.fastq") = Raise invalid_filename).
Proof.
  apply (get_label_dotted_stem (s2l "v1") (s2l "2__3") (s2l "fastq") "v"%char).
  - apply (bool_decide_unpack _). vm_compute. exact I.
  - apply (bool_decide_unpack _). vm_compute. exact I.
  - apply (bool_decide_unpack _). vm_compute. exact I.
  - apply (bool_decide_unpack _). vm_compute. exact I.
  - discriminate.
Defined.

Lemma lstrip_app_nonspace (a : str) (c : ascii) (b : str) :
  isspace c = false -> lstrip (a ++ c :: b) = lstrip a ++ c :: b.
Proof.
  intros Hc. induction a as [|x a IH]; simpl; [by rewrite Hc|].
  destruct (isspace x); done.
Qed.

(** [strip] keeps everything up to the last character that is not white
    space. *)
Lemma strip_keeps (d : ascii) (p : str) (c : ascii) (t : str) :
  isspace d = false -> isspace c = false ->
  strip (d :: p ++ c :: t) = d :: p ++ c :: rev (lstrip (rev t)).
Proof.
  intros Hd Hc. unfold strip. rewrite lstrip_nonspace by done.
  replace (rev (d :: p ++ c :: t)) with (rev t ++ c :: rev (d :: p)).
  2:{ change (d :: p ++ c :: t) with ((d :: p) ++ c :: t).
      rewrite rev_app_distr. simpl. by rewrite <- !app_assoc. }
  rewrite lstrip_app_nonspace by done.
  rewrite rev_app_distr. simpl rev at 1. rewrite rev_app_distr, rev_involutive.
  simpl. by rewrite <- app_assoc.
Qed.





Lemma strip_plain (d : ascii) (p : str) (c : ascii) :
  isspace d = false -> isspace c = false -> strip (d :: p ++ [c]) = d :: p ++ [c].
Proof. intros Hd Hc. by rewrite strip_keeps. Qed.

(** [int] on a decimal literal with a minus sign. *)
Lemma int_negative (digits : str) :
  Forall is_digit digits -> digits <> [] ->
  Z.of_nat (length digits) <= max_str_digits ->
  int ("-"%char :: digits) = Ok (- decimal_value digits).
Proof.
  intros Hall Hne Hlen.
  destruct (exists_last Hne) as (p & c & ->).
  assert (is_digit c) as Hc.
  { apply Forall_app in Hall as [_ Hall]. by apply Forall_cons in Hall as [? _]. }
  unfold int. rewrite strip_plain; [|done|by apply is_digit_not_space].
  simpl. rewrite scan_digits_all by (done || by destruct p).
  destruct (Z.ltb_spec max_str_digits (0 + Z.of_nat (length (p ++ [c]))));
    [exfalso; lia|].
  unfold decimal_value. f_equal; lia.
Qed.

(** X7. A minus sign between the delimiter and the digits gives a negative
    label: stem__-digits.ext1.ext2, in any directory, yields minus the value
    of the digits. *)
Theorem get_label_negative (dir stem digits ext1 ext2 : str) :
  dir = [] \/ (exists d, dir = d ++ ["/"%char]) ->
  "/"%char ∉ (stem ++ delimiter ++ "-"%char :: digits) ++ ext1 ++ ext2 ->
  "."%char ∉ ext1 ++ ext2 ->
  Forall is_digit digits -> digits <> [] ->
  Z.of_nat (length digits) <= max_str_digits ->
  get_label_from_filename
    (dir ++ (stem ++ delimiter ++ "-"%char :: digits) ++ "."%char :: ext1 ++ "."%char :: ext2)
    = Ok (- decimal_value digits).
Proof.
  intros Hdir Hsep Hdot Hall Hne Hlen.
  rewrite (get_label_suffix _ stem ("-"%char :: digits)).
  - by apply int_negative.
  - apply (label_filename_two_extensions _ _ _ _ "_"); try done.
    apply delimiter_elem.
  - rewrite not_elem_of_cons. split; [done|by apply is_digit_not_underscore].
Qed.

Lemma get_label_negative_witness :
  get_label_from_filename (s2l "reads__-1.fastq.gz") = Ok (-1).
Proof.
  apply (get_label_negative [] (s2l "reads") (s2l "1") (s2l "fastq") (s2l "gz")).
  - by left.
  - apply (bool_decide_unpack _). vm_compute. exact I.
  - apply (bool_decide_unpack _). vm_compute. exact I.
  - repeat constructor; vm_compute; discriminate.
  - discriminate.
  - vm_compute. discriminate.
Defined.

(** ** Alignment index: exceptions, keys, order *)







Lemma load_alignment_lines_size (lines : list str) : forall m d,
  load_alignment_lines lines m = Ok d ->
  (size d <= size m + length lines)%nat.
Proof.
  induction lines as [|line lines IH]; intros m d Hd; simpl in Hd.
  { injection Hd as <-. simpl. lia. }
  destruct (parse_alignment_line line) as [[read_id entry]|]; simpl in Hd; [|done].
  apply IH in Hd. simpl.
  assert (size (<[read_id:=entry]> m) <= S (size m))%nat; [|lia].
  destruct (m !! read_id) eqn:Hm.
  - rewrite map_size_insert_Some by eauto. lia.
  - by rewrite map_size_insert_None.
Qed.

Lemma last_occurrence_is_Some (k : str) (lines : list str) :
  is_Some (last_occurrence k lines) ->
  Exists (fun l => line_read_id l = Some k) lines.
Proof.
  intros Hsome. destruct (decide (Exists (fun l => line_read_id l = Some k) lines));
    [done|].
  rewrite last_occurrence_absent in Hsome by done. by destruct Hsome.
Qed.

(** X10. When load_alignment_info returns an index, its keys are exactly the
    read identifiers (first fields) of the lines, so it has at most one
    entry per line, and the index of an empty table is empty. *)
Theorem load_alignment_info_keys (lines : list str) (d : gmap str (Z * Z * Z)) :
  load_alignment_info lines = Ok d ->
  (forall read_id,
     is_Some (d !! read_id) <-> Exists (fun l => line_read_id l = Some read_id) lines) /\
  (size d <= length lines)%nat /\
  (lines = [] -> d = ∅).
Proof.
  intros Hd.
  assert (Forall well_formed_line lines) as Hwf.
  { apply Forall_forall. intros line Hin.
    destruct (parse_alignment_line_cases line) as [[? _]|[Hn _]]; [done|].
    destruct (load_alignment_lines_fail lines ∅) as [e He].
    - apply Exists_exists. eauto.
    - unfold load_alignment_info in Hd. by rewrite He in Hd. }
  destruct (load_alignment_lines_ok lines ∅ Hwf) as (d' & Hd' & Hlook).
  unfold load_alignment_info in Hd. rewrite Hd' in Hd. injection Hd as ->.
  split; [|split].
  - intros k. rewrite Hlook, lookup_empty. split.
    + intros Hsome. apply last_occurrence_is_Some.
      by destruct (last_occurrence k lines).
    + intros Hex. destruct (last_occurrence_present k lines Hwf Hex) as [x ->]. eauto.
  - apply load_alignment_lines_size in Hd'. rewrite map_size_empty in Hd'. lia.
  - intros ->. simpl in Hd'. by injection Hd'.
Qed.

Lemma load_alignment_info_keys_witness :
  exists d, load_alignment_info [s2l "r1,3,10,160"; s2l "r1,4,1,2"] = Ok d /\
            (size d <= 2)%nat.
Proof.
  destruct (load_alignment_info [s2l "r1,3,10,160"; s2l "r1,4,1,2"]) as [d|] eqn:Hd;
    [|vm_compute in Hd; discriminate].
  exists d. split; [reflexivity|].
  exact (proj1 (proj2 (load_alignment_info_keys _ d Hd))).
Defined.




(** ** Dataset loader: what the index may be *)

















Lemma load_record_falsy dev a n label st record :
  truthy a = false ->
  load_record dev a n label st record = load_record dev ArgNone n label st record.
Proof. intros Ha. unfold load_record. by rewrite Ha. Qed.

Lemma load_records_falsy_eq dev a n label records : forall st,
  truthy a = false ->
  load_records dev a n label st records = load_records dev ArgNone n label st records.
Proof.
  induction records as [|record records IH]; intros st Ha; [done|].
  simpl. rewrite load_record_falsy by done.
  destruct (load_record dev ArgNone n label st record); simpl; [by apply IH|done].
Qed.

(** X15. An index without entries is to load_sequences what None is: the
    index read from an empty table is the empty dictionary, and the empty
    dictionary and the empty string give the result of a load without index,
    whose auxiliary array is None. *)
Theorem load_sequences_empty_index parse_fastq dev file_path :
  load_alignment_info [] = Ok ∅ /\
  load_sequences parse_fastq dev file_path (ArgDict ∅)
    = load_sequences parse_fastq dev file_path ArgNone /\
  load_sequences parse_fastq dev file_path (ArgStr [])
    = load_sequences parse_fastq dev file_path ArgNone /\
  (forall r, load_sequences parse_fastq dev file_path (ArgDict ∅) = Ok r -> aux r = None).
Proof.
  split; [done|].
  assert (forall a, truthy a = false ->
            load_sequences parse_fastq dev file_path a
            = load_sequences parse_fastq dev file_path ArgNone) as Heq.
  { intros a Ha. unfold load_sequences, load_sequences_with.
    destruct (get_label_from_filename file_path); simpl; [|done].
    destruct (parse_fastq file_path); simpl; [|done].
    by rewrite load_records_falsy_eq. }
  split; [by apply Heq|]. split; [by apply Heq|].
  intros r. rewrite Heq by done.
  by apply (load_sequences_no_dict parse_fastq dev file_path ArgNone r).
Qed.

Lemma load_sequences_empty_index_witness :
  exists r, load_sequences one_read_fastq CPU (s2l "reads__1.fastq") (ArgDict ∅) = Ok r /\
            aux r = None.
Proof.
  destruct (load_sequences one_read_fastq CPU (s2l "reads__1.fastq") (ArgDict ∅))
    as [r|] eqn:Hr; [|vm_compute in Hr; discriminate].
  exists r. split; [reflexivity|].
  exact (proj2 (proj2 (proj2 (load_sequences_empty_index one_read_fastq CPU
                                (s2l "reads__1.fastq")))) r Hr).
Defined.

(** ** Training data: gathering, concatenation, split *)

Lemma omap_cons_Some {A B} (f : A -> option B) (x : A) (y : B) (l : list A) :
  f x = Some y -> omap f (x :: l) = y :: omap f l.
Proof.
  intros Hx.
  change (omap f (x :: l))
    with (match f x with Some y => y :: omap f l | None => omap f l end).
  by rewrite Hx.
Qed.

Lemma np_take_in_range {A} (a : list A) (indices : list Z) :
  Forall (fun i => 0 <= i < Z.of_nat (length a)) indices ->
  np_take a indices = Ok (omap (fun i => a !! Z.to_nat i) indices) /\
  length (omap (fun i => a !! Z.to_nat i) indices) = length indices.
Proof.
  induction indices as [|i indices IH]; intros Hall; [done|].
  apply Forall_cons in Hall as [Hi Hall]. destruct (IH Hall) as [IHeq IHlen].
  simpl np_take.
  destruct (proj1 (np_getitem_spec a i)) as (x & -> & Hx); [lia|].
  destruct (Z.ltb_spec i 0); [exfalso; lia|].
  rewrite IHeq, (omap_cons_Some _ i x) by done. simpl. by rewrite IHlen.
Qed.

Lemma np_take_error {A} (a : list A) (indices : list Z) (e : exn) :
  np_take a indices = Raise e -> e = IndexError.
Proof.
  destruct (decide (Forall (fun i => - Z.of_nat (length a) <= i < Z.of_nat (length a))
                           indices)) as [Hall|Hno].
  - destruct (proj1 (np_take_spec a indices) Hall) as (xs & -> & _). done.
  - apply not_Forall_Exists in Hno; [|intros; apply _].
    rewrite (proj2 (np_take_spec a indices) Hno). by intros [= <-].
Qed.

Lemma np_take_out_of_range {A} (a : list A) (indices : list Z) (i : Z) :
  i ∈ indices -> Z.of_nat (length a) <= i ->
  np_take a indices = Raise IndexError.
Proof.
  intros Hin Hi. apply np_take_spec. apply Exists_exists. exists i. split; [done|]. lia.
Qed.

Lemma omap_lookup_seq {A} (l : list A) (n : nat) : forall k,
  (k + n <= length l)%nat ->
  omap (fun i => l !! Z.to_nat i) (Z.of_nat <$> List.seq k n) = take n (drop k l).
Proof.
  induction n as [|n IH]; intros k Hk; [done|].
  destruct (lookup_lt_is_Some_2 l k) as [x Hx]; [lia|].
  simpl List.seq. rewrite fmap_cons.
  rewrite (omap_cons_Some _ _ x) by (by rewrite Nat2Z.id).
  rewrite IH by lia. by rewrite (drop_S l x k Hx).
Qed.

Lemma omap_lookup_range {A} (l : list A) :
  omap (fun i => l !! Z.to_nat i) (range (Z.of_nat (length l))) = l.
Proof.
  unfold range. rewrite Nat2Z.id, omap_lookup_seq by lia.
  by rewrite drop_0, firstn_all.
Qed.

Lemma omap_lookup_zip {A B} (a : list A) (b : list B) (indices : list Z) :
  length a = length b ->
  Forall (fun i => 0 <= i < Z.of_nat (length a)) indices ->
  zip (omap (fun i => a !! Z.to_nat i) indices) (omap (fun i => b !! Z.to_nat i) indices)
  = omap (fun i => zip a b !! Z.to_nat i) indices.
Proof.
  intros Hlen. induction 1 as [|i indices Hi _ IH]; [done|].
  destruct (lookup_lt_is_Some_2 a (Z.to_nat i)) as [x Hx]; [lia|].
  destruct (lookup_lt_is_Some_2 b (Z.to_nat i)) as [y Hy]; [lia|].
  rewrite (omap_cons_Some _ i x), (omap_cons_Some _ i y) by done.
  rewrite (omap_cons_Some _ i (x, y)).
  - simpl. by rewrite IH.
  - rewrite lookup_zip_with, Hx, Hy. done.
Qed.

(** The three index lists of line 188 and what they are made of. *)
Lemma train_nn_split_indices rng (N : nat) (train test val : list Z) :
  train_test_val_split rng (Z.of_nat N) (7 # 10) (15 # 100) = (train, test, val) ->
  train ++ test ++ val ≡ₚ range (Z.of_nat N) /\
  Forall (fun i => 0 <= i < Z.of_nat N) train /\
  Forall (fun i => 0 <= i < Z.of_nat N) test /\
  Forall (fun i => 0 <= i < Z.of_nat N) val.
Proof.
  intros Hsplit.
  pose proof (split_partition rng (Z.of_nat N) (7 # 10) (15 # 100)) as H.
  rewrite Hsplit in H. destruct H as (Hperm & _); [lia|done|done|].
  split; [done|].
  assert (Forall (fun i => 0 <= i < Z.of_nat N) (train ++ test ++ val)) as Hall.
  { rewrite Hperm. apply Forall_forall. intros i. by rewrite range_elem_of. }
  apply Forall_app in Hall as [? Hall]. apply Forall_app in Hall as [? ?]. done.
Qed.

Lemma np_take_examples (a : list (list Q)) (b : list Z) (train test val : list Z) :
  length b = length a ->
  train ++ test ++ val ≡ₚ range (Z.of_nat (length a)) ->
  Forall (fun i => 0 <= i < Z.of_nat (length a)) (train ++ test ++ val) ->
  zip (omap (fun i => a !! Z.to_nat i) train) (omap (fun i => b !! Z.to_nat i) train)
  ++ zip (omap (fun i => a !! Z.to_nat i) test) (omap (fun i => b !! Z.to_nat i) test)
  ++ zip (omap (fun i => a !! Z.to_nat i) val) (omap (fun i => b !! Z.to_nat i) val)
  ≡ₚ zip a b.
Proof.
  intros Hlen Hperm Hall.
  apply Forall_app in Hall as [Htrain Hall]. apply Forall_app in Hall as [Htest Hval].
  rewrite !omap_lookup_zip by done.
  rewrite <- !omap_app, Hperm.
  replace (Z.of_nat (length a)) with (Z.of_nat (length (zip a b)))
    by (rewrite length_zip; lia).
  by rewrite omap_lookup_range.
Qed.

(** X16. The split of train_nn keeps every sequence with its own label: when
    the data set has as many labels as sequences, the training, test and
    validation examples together are a permutation of the examples of the
    data set; without auxiliary data the split cannot fail. *)
Theorem train_nn_split_examples rng (data : dataset) :
  length (data_labels data) = length (data_sequences data) ->
  (forall sd, train_nn_split rng data = Ok sd ->
     zip (train_sequences sd) (train_labels sd)
       ++ zip (test_sequences sd) (test_labels sd)
       ++ zip (val_sequences sd) (val_labels sd)
     ≡ₚ examples data) /\
  (data_aux_inputs data = None -> exists sd, train_nn_split rng data = Ok sd).
Proof.
  intros Hlen. unfold train_nn_split, examples.
  destruct (train_test_val_split rng _ _ _) as [[train test] val] eqn:Hsplit.
  apply train_nn_split_indices in Hsplit as (Hperm & Htrain & Htest & Hval).
  pose proof (np_take_examples (data_sequences data) (data_labels data) train test val
                Hlen Hperm) as Hex.
  rewrite (proj1 (np_take_in_range (data_sequences data) train Htrain)).
  rewrite (proj1 (np_take_in_range (data_sequences data) test Htest)).
  rewrite (proj1 (np_take_in_range (data_sequences data) val Hval)).
  rewrite <- Hlen in Htrain, Htest, Hval.
  rewrite (proj1 (np_take_in_range (data_labels data) train Htrain)).
  rewrite (proj1 (np_take_in_range (data_labels data) test Htest)).
  rewrite (proj1 (np_take_in_range (data_labels data) val Hval)).
  rewrite Hlen in Htrain, Htest, Hval.
  simpl. split.
  - intros sd Hsd.
    destruct (data_aux_inputs data) as [all_aux|].
    + destruct (np_take all_aux train); simpl in Hsd; [|done].
      destruct (np_take all_aux test); simpl in Hsd; [|done].
      destruct (np_take all_aux val); simpl in Hsd; [|done].
      injection Hsd as <-. simpl. apply Hex. by rewrite !Forall_app.
    + injection Hsd as <-. simpl. apply Hex. by rewrite !Forall_app.
  - intros ->. eauto.
Qed.

Lemma train_nn_split_examples_witness :
  exists sd, train_nn_split (fun _ => 0%nat) three_examples = Ok sd.
Proof.
  exact (proj2 (train_nn_split_examples (fun _ => 0%nat) three_examples eq_refl) eq_refl).
Defined.

(** X17. When the data set holds fewer auxiliary vectors than sequences
    (some kept read was not in the index), indexing the auxiliary array with
    the indices of the split raises IndexError, whatever the shuffle. *)
Theorem train_nn_split_ragged rng (data : dataset) (all_aux : list (list Q)) :
  length (data_labels data) = length (data_sequences data) ->
  data_aux_inputs data = Some all_aux ->
  (length all_aux < length (data_sequences data))%nat ->
  train_nn_split rng data = Raise IndexError.
Proof.
  intros Hlen Haux Hshort. unfold train_nn_split.
  destruct (train_test_val_split rng _ _ _) as [[train test] val] eqn:Hsplit.
  apply train_nn_split_indices in Hsplit as (Hperm & Htrain & Htest & Hval).
  rewrite (proj1 (np_take_in_range (data_sequences data) train Htrain)).
  rewrite (proj1 (np_take_in_range (data_sequences data) test Htest)).
  rewrite (proj1 (np_take_in_range (data_sequences data) val Hval)).
  rewrite <- Hlen in Htrain, Htest, Hval.
  rewrite (proj1 (np_take_in_range (data_labels data) train Htrain)).
  rewrite (proj1 (np_take_in_range (data_labels data) test Htest)).
  rewrite (proj1 (np_take_in_range (data_labels data) val Hval)).
  simpl. rewrite Haux.
  assert (Z.of_nat (length all_aux) ∈ train ++ test ++ val) as Hin.
  { rewrite Hperm. apply range_elem_of. lia. }
  destruct (np_take all_aux train) as [ta|e1] eqn:H1; simpl.
  2:{ by rewrite (np_take_error _ _ _ H1). }
  destruct (np_take all_aux test) as [sa|e2] eqn:H2; simpl.
  2:{ by rewrite (np_take_error _ _ _ H2). }
  destruct (np_take all_aux val) as [va|e3] eqn:H3; simpl.
  2:{ by rewrite (np_take_error _ _ _ H3). }
  exfalso. rewrite !elem_of_app in Hin. destruct Hin as [Hin|[Hin|Hin]].
  - rewrite (np_take_out_of_range all_aux train _ Hin) in H1 by lia. done.
  - rewrite (np_take_out_of_range all_aux test _ Hin) in H2 by lia. done.
  - rewrite (np_take_out_of_range all_aux val _ Hin) in H3 by lia. done.
Qed.

Lemma train_nn_split_ragged_witness :
  train_nn_split (fun _ => 0%nat) ragged_examples = Raise IndexError.
Proof.
  apply (train_nn_split_ragged (fun _ => 0%nat) ragged_examples [[0]%Q]).
  - reflexivity.
  - reflexivity.
  - simpl. lia.
Defined.

(** What the loading loop of [train_nn] gathers from files that all load. *)
Lemma train_nn_gather_loaded parse_fastq dev alignment_data fastq_files :
  forall (rs : list loaded) (g : gathered),
  Forall2 (fun file_path r => load_sequences parse_fastq dev file_path alignment_data = Ok r)
          fastq_files rs ->
  exists g',
    train_nn_gather parse_fastq dev fastq_files alignment_data g = Ok g' /\
    all_sequences g' = all_sequences g ++ (sequences <$> rs) /\
    all_labels g' = all_labels g ++ (seq_labels <$> rs).
Proof.
  induction fastq_files as [|file_path fastq_files IH]; intros rs g Hload.
  { apply Forall2_nil_inv_l in Hload as ->. exists g. simpl. by rewrite !app_nil_r. }
  apply Forall2_cons_inv_l in Hload as (r & rs' & Hr & Hload & ->).
  simpl. rewrite Hr. simpl.
  edestruct (IH rs') as (g' & Hg' & Hs & Hl); [done|].
  exists g'. split; [exact Hg'|]. rewrite Hs, Hl. simpl.
  by rewrite <- !app_assoc.
Qed.

Lemma np_concatenate_mixed {A} (arrays : list (list A)) (empty full : list A) :
  empty ∈ arrays -> full ∈ arrays -> empty = [] -> full <> [] ->
  np_concatenate arrays
  = Raise (ValueError "all the input arrays must have same number of dimensions").
Proof.
  intros Hempty Hfull -> Hne. unfold np_concatenate.
  destruct arrays as [|a arrays]; [by apply elem_of_nil in Hempty|].
  assert (forallb (fun a0 : list A => bool_decide (length a0 = 0%nat)) (a :: arrays) = false)
    as ->.
  { apply not_true_is_false. intros Hall. rewrite forallb_forall in Hall.
    apply list_elem_of_In, Hall, bool_decide_eq_true in Hfull. by destruct full. }
  assert (forallb (fun a0 : list A => negb (bool_decide (length a0 = 0%nat))) (a :: arrays)
          = false) as ->.
  { apply not_true_is_false. intros Hall. rewrite forallb_forall in Hall.
    apply list_elem_of_In, Hall in Hempty. done. }
  done.
Qed.

(** X18. np.concatenate stops train_nn with a ValueError when there is no
    file at all, and when all files load but one yields no kept read while
    another yields some, the empty array not having the dimensions of the
    others. *)
Theorem train_nn_concatenate parse_fastq dev alignment_data :
  train_nn parse_fastq dev [] alignment_data
    = Raise (ValueError "need at least one array to concatenate") /\
  (forall fastq_files rs r_empty r_full,
     Forall2 (fun file_path r =>
                load_sequences parse_fastq dev file_path alignment_data = Ok r)
             fastq_files rs ->
     r_empty ∈ rs -> sequences r_empty = [] ->
     r_full ∈ rs -> sequences r_full <> [] ->
     train_nn parse_fastq dev fastq_files alignment_data
       = Raise (ValueError "all the input arrays must have same number of dimensions")).
Proof.
  split; [done|].
  intros fastq_files rs r_empty r_full Hload Hin_e He Hin_f Hf. unfold train_nn.
  edestruct (train_nn_gather_loaded parse_fastq dev alignment_data fastq_files rs)
    as (g & -> & Hs & _); [done|].
  simpl. rewrite Hs. simpl.
  assert (np_concatenate (sequences <$> rs)
          = Raise (ValueError "all the input arrays must have same number of dimensions"))
    as ->; [|done].
  apply (np_concatenate_mixed _ (sequences r_empty) (sequences r_full)); try done.
  - by apply list_elem_of_fmap_2.
  - by apply list_elem_of_fmap_2.
Qed.

Lemma train_nn_concatenate_witness :
  train_nn two_files_fastq CPU [s2l "long__1.fastq"; s2l "short__2.fastq"] ArgNone
  = Raise (ValueError "all the input arrays must have same number of dimensions").
Proof.
  destruct (load_sequences two_files_fastq CPU (s2l "long__1.fastq") ArgNone)
    as [r1|] eqn:H1; [|vm_compute in H1; discriminate].
  destruct (load_sequences two_files_fastq CPU (s2l "short__2.fastq") ArgNone)
    as [r2|] eqn:H2; [|vm_compute in H2; discriminate].
  apply (proj2 (train_nn_concatenate two_files_fastq CPU ArgNone)
           [s2l "long__1.fastq"; s2l "short__2.fastq"] [r1; r2] r2 r1).
  - constructor; [exact H1|]. constructor; [exact H2|]. constructor.
  - apply list_elem_of_further, list_elem_of_here.
  - vm_compute in H2. by injection H2 as <-.
  - apply list_elem_of_here.
  - vm_compute in H1. by injection H1 as <-.
Defined.

Lemma train_nn_gather_app parse_fastq dev alignment_data files1 files2 : forall g,
  train_nn_gather parse_fastq dev (files1 ++ files2) alignment_data g
  = train_nn_gather parse_fastq dev files1 alignment_data g
      ≫= train_nn_gather parse_fastq dev files2 alignment_data.
Proof.
  induction files1 as [|f files1 IH]; intros g; [done|].
  simpl. destruct (load_sequences parse_fastq dev f alignment_data); simpl; [|done].
  apply IH.
Qed.

Lemma predict_nn_app parse_fastq read_lines dev model alignment_data files1 files2 :
  predict_nn parse_fastq read_lines dev model (files1 ++ files2) alignment_data
  = out1 ← predict_nn parse_fastq read_lines dev model files1 alignment_data;
    out2 ← predict_nn parse_fastq read_lines dev model files2 alignment_data;
    Ok (out1 ++ out2).
Proof.
  induction files1 as [|f files1 IH]; simpl.
  { by destruct (predict_nn _ _ _ _ files2 _). }
  destruct (predict_file _ _ _ _ f _) as [out|]; simpl; [|done].
  rewrite IH.
  destruct (predict_nn _ _ _ _ files1 _) as [out1|]; simpl; [|done].
  destruct (predict_nn _ _ _ _ files2 _) as [out2|]; simpl; [|done].
  by rewrite app_assoc.
Qed.

(** X19. One file that fails stops the whole command with its exception:
    train_nn raises the exception of the first file that load_sequences
    rejects, and predict_nn that of the first file whose prediction fails,
    whatever files follow. *)
Theorem first_failing_file parse_fastq read_lines dev model
    (done_files : list str) (failing : str) (rest : list str) (e : exn) :
  (forall alignment_data rs,
     Forall2 (fun file_path r =>
                load_sequences parse_fastq dev file_path alignment_data = Ok r)
             done_files rs ->
     load_sequences parse_fastq dev failing alignment_data = Raise e ->
     train_nn parse_fastq dev (done_files ++ failing :: rest) alignment_data = Raise e) /\
  (forall alignment_data,
     Forall (fun file_path =>
               is_ok (predict_file parse_fastq read_lines dev model file_path
                        alignment_data) = true) done_files ->
     predict_file parse_fastq read_lines dev model failing alignment_data = Raise e ->
     predict_nn parse_fastq read_lines dev model (done_files ++ failing :: rest)
       alignment_data = Raise e).
Proof.
  split.
  - intros alignment_data rs Hload Hfail. unfold train_nn.
    rewrite train_nn_gather_app.
    edestruct (train_nn_gather_loaded parse_fastq dev alignment_data done_files rs)
      as (g & -> & _); [done|].
    simpl. by rewrite Hfail.
  - intros alignment_data Hdone Hfail. rewrite predict_nn_app.
    assert (exists out, predict_nn parse_fastq read_lines dev model done_files
                          alignment_data = Ok out) as [out ->].
    { induction Hdone as [|f fs Hf _ [out IH]]; simpl; [eauto|].
      destruct (predict_file _ _ _ _ f _); [|done]. simpl. rewrite IH. simpl. eauto. }
    simpl. by rewrite Hfail.
Qed.

Lemma first_failing_file_witness :
  train_nn two_files_fastq CPU
    ([s2l "long__1.fastq"] ++ s2l "nolabel.fastq" :: [s2l "short__2.fastq"]) ArgNone
  = Raise invalid_filename.
Proof.
  destruct (load_sequences two_files_fastq CPU (s2l "long__1.fastq") ArgNone)
    as [r1|] eqn:H1; [|vm_compute in H1; discriminate].
  apply (proj1 (first_failing_file two_files_fastq (fun _ => Ok [])
                  CPU (fun _ _ => Ok []) [s2l "long__1.fastq"] (s2l "nolabel.fastq")
                  [s2l "short__2.fastq"] invalid_filename) ArgNone [r1]).
  - constructor; [exact H1|]. constructor.
  - reflexivity.
Defined.

(** ** The classifier on the arrays of the loader *)

(** The loader never holds more auxiliary vectors than sequence tensors. *)
Lemma load_record_aux_le dev a n label st record st' :
  load_record dev a n label st record = Ok st' ->
  (length (aux_inputs st) <= length (seqs st))%nat ->
  (length (aux_inputs st') <= length (seqs st'))%nat.
Proof.
  unfold load_record.
  destruct (length (normalize_sequence (seq record)) <? INPUT_SIZE)%nat.
  { by intros [= <-]. }
  destruct (truthy a); simpl.
  - destruct (arg_contains a (id record)) as [[|]|]; simpl; [| |done].
    + destruct (arg_subscript a (id record)) as [entry|]; simpl; [|done].
      destruct (aux_input_of dev n entry) as [v|]; simpl; [|done].
      intros [= <-]. simpl. rewrite !length_app. simpl. lia.
    + intros [= <-]. simpl. rewrite length_app. simpl. lia.
  - intros [= <-]. simpl. rewrite length_app. simpl. lia.
Qed.

Lemma load_records_aux_le dev a n label records : forall st st',
  load_records dev a n label st records = Ok st' ->
  (length (aux_inputs st) <= length (seqs st))%nat ->
  (length (aux_inputs st') <= length (seqs st'))%nat.
Proof.
  induction records as [|record records IH]; intros st st'; simpl.
  { by intros [= <-]. }
  destruct (load_record dev a n label st record) as [st1|] eqn:H1; simpl; [|done].
  intros Hrest Hle. eapply IH; [done|]. by eapply load_record_aux_le.
Qed.

Lemma load_sequences_aux_le parse_fastq dev file_path a r all_aux :
  load_sequences parse_fastq dev file_path a = Ok r ->
  aux r = Some all_aux ->
  (0 < length all_aux <= length (sequences r))%nat.
Proof.
  unfold load_sequences, load_sequences_with.
  destruct (get_label_from_filename file_path) as [label|]; simpl; [|done].
  destruct (parse_fastq file_path) as [records|]; simpl; [|done].
  destruct (load_records _ _ _ _ _ _) as [st|] eqn:Hload; simpl; [|done].
  intros [= <-]. simpl.
  apply load_records_aux_le in Hload; [|simpl; lia].
  destruct (aux_inputs st) as [|v vs]; [done|]. intros [= <-]. simpl in *. lia.
Qed.

(** X20. On the arrays of a load without auxiliary array, the classifier
    that predict_nn builds returns logits of shape (number of kept reads,
    NUM_CLASSES) when some read is kept, with or without alignment data, and
    rejects the empty array of a file without kept reads with a ValueError. *)
Theorem predict_logits_shape_plain (alignment_data : option str) (r : loaded) :
  aux r = None ->
  predict_logits_shape alignment_data r
  = match sequences r with
    | [] => Raise (ValueError "incompatible input shape")
    | _ :: _ => Ok [length (sequences r); NUM_CLASSES]
    end.
Proof.
  intros Haux. unfold predict_logits_shape. rewrite Haux.
  destruct (sequences r) as [|s ss]; by destruct alignment_data.
Qed.

Lemma predict_logits_shape_plain_witness :
  predict_logits_shape None one_read_loaded = Ok [1%nat; NUM_CLASSES].
Proof.
  exact (predict_logits_shape_plain None one_read_loaded eq_refl).
Defined.

(** X21. Whenever load_sequences returns an auxiliary array for a dictionary
    index, the call of the classifier in predict_nn raises
    InvalidArgumentError: the auxiliary array has shape (k, 1,
    NUM_CHROMOSOMES + 2), and its dense image has one axis more than the
    pooled sequence features it is concatenated with. *)
Theorem predict_logits_shape_aux parse_fastq dev file_path d (path : str) r :
  load_sequences parse_fastq dev file_path (ArgDict d) = Ok r ->
  aux r <> None ->
  predict_logits_shape (Some path) r = Raise InvalidArgumentError.
Proof.
  intros Hload Haux. destruct (aux r) as [all_aux|] eqn:Ha; [|done].
  destruct (load_sequences_aux_le _ _ _ _ _ _ Hload Ha) as [Hpos Hle].
  unfold predict_logits_shape. rewrite Ha.
  destruct (sequences r) as [|s ss]; [simpl in Hle; lia|].
  destruct all_aux as [|v vs]; [simpl in Hpos; lia|].
  cbn. rewrite bool_decide_eq_true_2 by done. cbn.
  case_bool_decide as Hrank; [|done]. by destruct Hrank as [_ ?].
Qed.

Lemma predict_logits_shape_aux_witness :
  exists r,
    load_sequences one_read_fastq CPU (s2l "reads__1.fastq") (ArgDict one_read_index) = Ok r /\
    predict_logits_shape (Some (s2l "index.csv")) r = Raise InvalidArgumentError.
Proof.
  destruct (load_sequences one_read_fastq CPU (s2l "reads__1.fastq")
              (ArgDict one_read_index)) as [r|] eqn:Hr; [|vm_compute in Hr; discriminate].
  exists r. split; [reflexivity|].
  apply (predict_logits_shape_aux one_read_fastq CPU (s2l "reads__1.fastq")
           one_read_index (s2l "index.csv") r Hr).
  vm_compute in Hr. injection Hr as <-. discriminate.
Defined.

(** X22. Whenever HybridModel.call returns, with or without recurrent layer
    and auxiliary input, the logits have shape (batch size, number of
    classes), the batch size being the first axis of the input. *)
Theorem call_output_shape (m : hybrid_model) (inputs : shape) (aux_input : option shape)
    (out : shape) :
  call m inputs aux_input = Ok out ->
  exists n rest, inputs = n :: rest /\ out = [n; fc m].
Proof.
  unfold call.
  destruct (cnn m inputs) as [x|] eqn:Hcnn; simpl; [|done].
  assert (exists n steps rest, inputs = n :: rest /\ x = [n; steps; 64%nat])
    as (n & steps & rest & -> & ->).
  { unfold cnn in Hcnn.
    destruct inputs as [|n [|steps [|one [|]]]]; try done.
    - case_bool_decide; [|done]. injection Hcnn as <-. eauto.
    - destruct one as [|[|]]; try done.
      case_bool_decide; [|done]. injection Hcnn as <-. eauto.
    - by destruct one as [|[|]]. }
  assert (forall y, match lstm m with
                    | Some hidden => bidirectional_lstm hidden [n; steps; 64%nat]
                    | None => Ok [n; steps; 64%nat]
                    end = Ok y -> exists w, y = [n; steps; w]) as Hl.
  { intros y. destruct (lstm m); simpl; intros [= <-]; eauto. }
  destruct (match lstm m with Some _ => _ | None => _ end) as [y|]; simpl; [|done].
  destruct (Hl y eq_refl) as [w ->]. clear Hl.
  assert (forall z, match aux_fc m, aux_input with
                    | Some units, Some a =>
                        aux_out ← dense units a;
                        pooled ← reduce_mean_axis1 [n; steps; w];
                        concat_axis1 pooled aux_out
                    | _, _ => reduce_mean_axis1 [n; steps; w]
                    end = Ok z -> exists c, z = [n; c]) as Hz.
  { intros z. destruct (aux_fc m) as [units|], aux_input as [a|]; simpl;
      try (intros [= <-]; eauto).
    destruct (dense units a) as [aux_out|]; simpl; [|done].
    destruct aux_out as [|n2 [|a2 rest2]]; simpl; try done.
    case_bool_decide as Hc; [|done]. intros [= <-]. eauto. }
  destruct (match aux_fc m with Some _ => _ | None => _ end) as [z|]; simpl; [|done].
  destruct (Hz z eq_refl) as [c ->].
  intros [= <-]. eauto.
Qed.

Lemma call_output_shape_witness :
  exists n rest,
    [4%nat; INPUT_SIZE; 1%nat] = n :: rest /\ [4%nat; NUM_CLASSES] = [n; fc plain_hybrid_model].
Proof.
  exact (call_output_shape plain_hybrid_model [4%nat; INPUT_SIZE; 1%nat] None
           [4%nat; NUM_CLASSES] eq_refl).
Defined.

(** ** Validation accuracy *)

(** The sum of a list of truth values cast to numbers: it counts them. *)
Lemma Qsum_cast_float (bs : list bool) :
  exists k : nat,
    (Qsum (cast_float <$> bs) == inject_Z (Z.of_nat k))%Q /\
    (k <= length bs)%nat /\
    (k = length bs <-> Forall (fun b => b = true) bs).
Proof.
  induction bs as [|b bs (k & Hsum & Hle & Hall)].
  { exists 0%nat. simpl. split; [reflexivity|]. split; [lia|]. split; [by constructor|done]. }
  destruct b.
  - exists (S k). split; [|split; [simpl; lia|]].
    + change (Qsum (cast_float <$> true :: bs)) with (1 + Qsum (cast_float <$> bs))%Q.
      rewrite Hsum, Nat2Z.inj_succ, <- Z.add_1_l, inject_Z_plus. reflexivity.
    + simpl. rewrite Forall_cons. split.
      * intros [= Hk]. split; [done|]. by apply Hall.
      * intros [_ Hbs]. f_equal. by apply Hall.
  - exists k. split; [|split; [simpl; lia|]].
    + change (Qsum (cast_float <$> false :: bs)) with (0 + Qsum (cast_float <$> bs))%Q.
      rewrite Hsum. ring.
    + simpl. rewrite Forall_cons. split; [lia|]. by intros [? _].
Qed.

Lemma reduce_mean_one (bs : list bool) :
  bs <> [] ->
  exists mean, reduce_mean (cast_float <$> bs) = Some mean /\
    ((mean == 1)%Q <-> Forall (fun b => b = true) bs).
Proof.
  intros Hne. destruct (Qsum_cast_float bs) as (k & Hsum & Hle & Hall).
  destruct bs as [|b bs]; [done|].
  exists (Qsum (cast_float <$> b :: bs)
          / inject_Z (Z.of_nat (length (cast_float <$> b :: bs))))%Q.
  split; [done|]. rewrite <- Hall, Hsum, length_fmap.
  assert (~ inject_Z (Z.of_nat (length (b :: bs))) == 0)%Q as Hlen.
  { unfold Qeq. simpl. lia. }
  split.
  - intros Hone. apply Nat2Z.inj, inject_Z_injective.
    transitivity (inject_Z (Z.of_nat k) / inject_Z (Z.of_nat (length (b :: bs)))
                  * inject_Z (Z.of_nat (length (b :: bs))))%Q.
    + field. exact Hlen.
    + rewrite Hone. ring.
  - intros ->. field. exact Hlen.
Qed.

(** X23. evaluate compares the vector of predicted classes with the column
    of labels, which broadcasts to every pair of a prediction and a label:
    for a classifier that predicts every label correctly, the accuracy
    returned is 1 exactly when all labels of the set are equal. *)
Theorem evaluate_perfect_classifier
    (model : list (list Q) -> option (list (list Q)) -> result (list (list Q)))
    (sequences : list (list Q)) (label_column : list Z)
    (aux_inputs : option (list (list Q))) (predictions : list (list Q)) :
  model sequences aux_inputs = Ok predictions ->
  Forall2 (fun row label => Z.of_nat (argmax row) = label) predictions label_column ->
  label_column <> [] ->
  exists accuracy,
    evaluate model sequences label_column aux_inputs = Ok (Some accuracy) /\
    ((accuracy == 1)%Q <->
     forall l1 l2, l1 ∈ label_column -> l2 ∈ label_column -> l1 = l2).
Proof.
  intros Hmodel Hperfect Hne. unfold evaluate. rewrite Hmodel. simpl.
  destruct (reduce_mean_one
              (concat (equal_broadcast (argmax <$> predictions) label_column)))
    as (mean & -> & Hone).
  { destruct Hperfect as [|row label rows labels]; [done|]. done. }
  exists mean. split; [done|]. rewrite Hone. clear Hone.
  unfold equal_broadcast. rewrite Forall_concat, Forall_fmap.
  assert ((Z.of_nat ∘ argmax) <$> predictions = label_column) as Hpred.
  { clear Hmodel Hne. induction Hperfect as [|row label rows labels Hr _ IH]; [done|].
    rewrite fmap_cons. simpl. by rewrite Hr, IH. }
  split.
  - intros Hall l1 l2 H1 H2.
    rewrite Forall_forall in Hall. specialize (Hall l1 H1). simpl in Hall.
    rewrite Forall_fmap, Forall_fmap, Forall_forall in Hall.
    rewrite <- Hpred in H2. apply list_elem_of_fmap in H2 as (row & -> & Hrow).
    specialize (Hall row Hrow). simpl in Hall. by apply bool_decide_eq_true in Hall.
  - intros Hsame. apply Forall_forall. intros l1 H1. simpl.
    rewrite Forall_fmap, Forall_fmap. apply Forall_forall. intros row Hrow. simpl.
    apply bool_decide_eq_true. apply Hsame; [|done].
    rewrite <- Hpred. apply list_elem_of_fmap. by exists row.
Qed.

Lemma evaluate_perfect_classifier_witness :
  exists accuracy,
    evaluate two_class_model [] [0; 1] None = Ok (Some accuracy) /\
    ~ (accuracy == 1)%Q.
Proof.
  destruct (evaluate_perfect_classifier two_class_model [] [0; 1] None
              [[1; 0]; [0; 1]]%Q) as (accuracy & Heval & Hone).
  - reflexivity.
  - constructor; [reflexivity|]. constructor; [reflexivity|]. constructor.
  - discriminate.
  - exists accuracy. split; [exact Heval|].
    intros H. assert (0 = 1) as Habs; [|discriminate].
    apply (proj1 Hone H 0 1);
      [apply list_elem_of_here | apply list_elem_of_further, list_elem_of_here].
Defined.





(** ** Small data sets, the encoder, the index of a prediction *)

Lemma np_take_length {A} (a : list A) (indices : list Z) (xs : list A) :
  np_take a indices = Ok xs -> length xs = length indices.
Proof.
  revert xs. induction indices as [|i indices IH]; intros xs; simpl.
  { by intros [= <-]. }
  destruct (np_getitem a i) as [x|]; simpl; [|done].
  destruct (np_take a indices) as [xs'|]; simpl; [|done].
  intros [= <-]. simpl. f_equal. by apply IH.
Qed.

Lemma Qfloor_scaled (N : Z) (p : Z) (q : positive) :
  Qfloor (inject_Z N * (p # q)) = N * p / Z.pos q.
Proof. unfold Qfloor, Qmult, inject_Z. simpl. done. Qed.

(** X25. The 0.7 / 0.15 split of train_nn on small data sets: the validation
    part is empty only for an empty data set, the training part is empty
    exactly when there is at most one example, and the test part exactly
    when there are at most six. *)
Theorem train_nn_split_small rng (data : dataset) (sd : split_data) :
  train_nn_split rng data = Ok sd ->
  let N := length (data_sequences data) in
  (val_sequences sd = [] <-> N = 0%nat) /\
  (train_sequences sd = [] <-> (N <= 1)%nat) /\
  (test_sequences sd = [] <-> (N <= 6)%nat).
Proof.
  unfold train_nn_split.
  pose proof (split_partition rng (Z.of_nat (length (data_sequences data)))
                (7 # 10) (15 # 100)) as Hsplit.
  destruct (train_test_val_split rng _ (7 # 10) (15 # 100)) as [[train test] val].
  destruct Hsplit as (_ & Htrain & Htest & Hval); [lia|done|done|].
  rewrite (Qfloor_scaled _ 7 10) in Htrain, Htest, Hval.
  rewrite (Qfloor_scaled _ 15 100) in Htest, Hval.
  destruct (np_take (data_sequences data) train) as [train_s|] eqn:H1; simpl; [|done].
  destruct (np_take (data_sequences data) test) as [test_s|] eqn:H2; simpl; [|done].
  destruct (np_take (data_sequences data) val) as [val_s|] eqn:H3; simpl; [|done].
  apply np_take_length in H1, H2, H3.
  intros Hsd.
  assert (train_sequences sd = train_s /\ test_sequences sd = test_s
          /\ val_sequences sd = val_s) as (-> & -> & ->).
  { destruct (np_take (data_labels data) train); simpl in Hsd; [|done].
    destruct (np_take (data_labels data) test); simpl in Hsd; [|done].
    destruct (np_take (data_labels data) val); simpl in Hsd; [|done].
    destruct (data_aux_inputs data) as [all_aux|].
    - destruct (np_take all_aux train); simpl in Hsd; [|done].
      destruct (np_take all_aux test); simpl in Hsd; [|done].
      destruct (np_take all_aux val); simpl in Hsd; [|done].
      by injection Hsd as <-.
    - by injection Hsd as <-. }
  set (N := length (data_sequences data)) in *.
  rewrite <- H1 in Htrain. rewrite <- H2 in Htest. rewrite <- H3 in Hval.
  clear H1 H2 H3 Hsd.
  pose proof (Z.div_mod (Z.of_nat N * 7) 10 ltac:(lia)) as D7.
  pose proof (Z.mod_pos_bound (Z.of_nat N * 7) 10 ltac:(lia)) as M7.
  pose proof (Z.div_mod (Z.of_nat N * 15) 100 ltac:(lia)) as D15.
  pose proof (Z.mod_pos_bound (Z.of_nat N * 15) 100 ltac:(lia)) as M15.
  change (Z.pos 10) with 10 in *. change (Z.pos 100) with 100 in *.
  cbv zeta.
  rewrite <- !length_zero_iff_nil. clearbody N.
  repeat split; lia.
Qed.

Lemma train_nn_split_small_witness :
  exists sd,
    train_nn_split (fun _ => 0%nat) three_examples = Ok sd /\
    (test_sequences sd = [] <-> (length (data_sequences three_examples) <= 6)%nat).
Proof.
  destruct (train_nn_split (fun _ => 0%nat) three_examples) as [sd|] eqn:Hsd;
    [|vm_compute in Hsd; discriminate].
  exists sd. split; [reflexivity|].
  exact (proj2 (proj2 (train_nn_split_small (fun _ => 0%nat) three_examples sd Hsd))).
Defined.

Lemma symbol_value_injective (c1 c2 : ascii) :
  nucleotide c1 -> nucleotide c2 -> symbol_value c1 = symbol_value c2 -> c1 = c2.
Proof.
  intros [-> | [-> | [-> | ->]]] [-> | [-> | [-> | ->]]]; vm_compute; congruence.
Qed.

(** X26. On sequences of the symbols A, C, G and T, normalize_sequence loses
    nothing: two such sequences with the same code are equal. *)
Theorem normalize_sequence_injective (seq1 seq2 : str) :
  Forall nucleotide seq1 -> Forall nucleotide seq2 ->
  normalize_sequence seq1 = normalize_sequence seq2 -> seq1 = seq2.
Proof.
  intros H1. revert seq2.
  induction H1 as [|c1 seq1 Hc1 _ IH]; intros seq2 H2; destruct H2 as [|c2 seq2 Hc2 H2];
    try done.
  unfold normalize_sequence. rewrite !fmap_cons, !mapping_get.
  intros [= Hhead Htail]. f_equal.
  - by apply symbol_value_injective.
  - by apply IH.
Qed.

Lemma normalize_sequence_injective_witness : s2l "ACGT" = s2l "ACGT".
Proof.
  apply (normalize_sequence_injective (s2l "ACGT") (s2l "ACGT")).
  - repeat (apply Forall_cons_2 || apply Forall_nil_2); unfold nucleotide; auto.
  - repeat (apply Forall_cons_2 || apply Forall_nil_2); unfold nucleotide; auto.
  - reflexivity.
Defined.

(** X27. predict_nn reads the alignment table inside the loop over the
    files: when the table cannot be read, a prediction for at least one file
    raises the exception of the table before anything is loaded, and a
    prediction for no file returns without reading it. *)
Theorem predict_nn_index_error parse_fastq read_lines dev model (path : str) (e : exn) :
  read_lines path ≫= load_alignment_info = Raise e ->
  predict_nn parse_fastq read_lines dev model [] (Some path) = Ok [] /\
  (forall fastq_path fastq_files,
     predict_nn parse_fastq read_lines dev model (fastq_path :: fastq_files) (Some path)
     = Raise e).
Proof.
  intros Hindex. split; [done|]. intros fastq_path fastq_files.
  simpl. unfold predict_file. by rewrite Hindex.
Qed.

Lemma predict_nn_index_error_witness :
  predict_nn one_read_fastq malformed_table CPU two_class_model
    [s2l "reads__1.fastq"] (Some (s2l "index.csv")) = Raise invalid_literal.
Proof.
  apply (proj2 (predict_nn_index_error one_read_fastq malformed_table CPU two_class_model
                  (s2l "index.csv") invalid_literal eq_refl)).
Defined.
